(** * Rate persistence of Predbat: [apps/predbat/rate_store.py]

    A shallow embedding of [RateStore] ([_get_filepath], [save_rates],
    [load_rates], [cleanup_old_files]) over a model of the generic
    persistent store it inherits from.  Rate values are kept abstract
    (the store never computes with them), minute tables are [gmap Z V],
    persisted sections are Python dicts with string keys, kept as
    association lists in insertion order. *)

From Stdlib Require Import ZArith String Ascii List DecimalZ QArith Qabs.
From Stdlib Require DecimalFacts.
From stdpp Require Import base gmap strings list sorting.

Open Scope Z_scope.

(* ------------------------------------------------------------------ *)
(** ** Python exceptions as an error monad *)

Inductive PyExc := ValueError | AttributeError.

Inductive res (A : Type) : Type :=
| Ok (a : A)
| Raise (e : PyExc).
Arguments Ok {A} a.
Arguments Raise {A} e.

Global Instance res_ret : MRet res := fun A a => Ok a.
Global Instance res_bind : MBind res :=
  fun A B f r => match r with Ok a => f a | Raise e => Raise e end.

(* ------------------------------------------------------------------ *)
(** ** [str(int)] and [int(str)] on minute keys *)

Module PyInt.

(** Characters [int()] strips around a literal (keys are Latin-1 strings):
    on an ASCII string CPython strips tab, line feed, vertical tab, form
    feed, carriage return and space ([Py_ISSPACE]); a non-ASCII string is
    first translated, its Unicode spaces NEL (133) and NBSP (160) becoming
    spaces.  Characters 28 to 31 are not stripped. *)
Definition is_space (c : ascii) : bool :=
  let n := nat_of_ascii c in
  ((9 <=? n)%nat && (n <=? 13)%nat) || (n =? 32)%nat
  || (n =? 133)%nat || (n =? 160)%nat.

Fixpoint lstrip (l : list ascii) : list ascii :=
  match l with
  | c :: r => if is_space c then lstrip r else l
  | [] => []
  end.

Definition strip (l : list ascii) : list ascii := rev (lstrip (rev (lstrip l))).

Definition digit_of (c : ascii) : option (Decimal.uint -> Decimal.uint) :=
  match c with
  | "0"%char => Some Decimal.D0 | "1"%char => Some Decimal.D1
  | "2"%char => Some Decimal.D2 | "3"%char => Some Decimal.D3
  | "4"%char => Some Decimal.D4 | "5"%char => Some Decimal.D5
  | "6"%char => Some Decimal.D6 | "7"%char => Some Decimal.D7
  | "8"%char => Some Decimal.D8 | "9"%char => Some Decimal.D9
  | _ => None
  end.

(** Decimal digits, a single [_] allowed between two digits. *)
Fixpoint uint_of (l : list ascii) : option Decimal.uint :=
  match l with
  | [] => None
  | c :: rest =>
      match digit_of c with
      | None => None
      | Some d =>
          match rest with
          | [] => Some (d Decimal.Nil)
          | u :: rest' =>
              if Ascii.eqb u "_"%char then option_map d (uint_of rest')
              else option_map d (uint_of rest)
          end
      end
  end.

(** [sys.int_max_str_digits]: Python's default limit (3.11 and later) on
    the number of digits [int(str)] and [str(int)] convert. *)
Definition int_max_str_digits : nat := 4300.

(** The digits of a literal, checked against the limit: [ValueError] when
    there are more than [int_max_str_digits] of them (leading zeros count,
    underscores do not). *)
Definition int_of_digits (neg : bool) (u : Decimal.uint) : res Z :=
  if Nat.ltb int_max_str_digits (Decimal.nb_digits u) then Raise ValueError
  else Ok (Z.of_int (if neg then Decimal.Neg u else Decimal.Pos u)).

(** [int(s)] in base 10: surrounding blanks, an optional sign, digits. *)
Definition int_of_str (s : string) : res Z :=
  match strip (list_ascii_of_string s) with
  | "-"%char :: r =>
      match uint_of r with
      | Some u => int_of_digits true u | None => Raise ValueError end
  | "+"%char :: r =>
      match uint_of r with
      | Some u => int_of_digits false u | None => Raise ValueError end
  | l =>
      match uint_of l with
      | Some u => int_of_digits false u | None => Raise ValueError end
  end.

Fixpoint chars_of_uint (u : Decimal.uint) : list ascii :=
  match u with
  | Decimal.Nil => []
  | Decimal.D0 u => "0"%char :: chars_of_uint u
  | Decimal.D1 u => "1"%char :: chars_of_uint u
  | Decimal.D2 u => "2"%char :: chars_of_uint u
  | Decimal.D3 u => "3"%char :: chars_of_uint u
  | Decimal.D4 u => "4"%char :: chars_of_uint u
  | Decimal.D5 u => "5"%char :: chars_of_uint u
  | Decimal.D6 u => "6"%char :: chars_of_uint u
  | Decimal.D7 u => "7"%char :: chars_of_uint u
  | Decimal.D8 u => "8"%char :: chars_of_uint u
  | Decimal.D9 u => "9"%char :: chars_of_uint u
  end.

(** The decimal form of [z]: shortest digits, a [-] for negative numbers. *)
Definition str_of_Z (z : Z) : string :=
  match Z.to_int z with
  | Decimal.Pos u => string_of_list_ascii (chars_of_uint u)
  | Decimal.Neg u => string_of_list_ascii ("-"%char :: chars_of_uint u)
  end.

(** Number of decimal digits of [|z|]. *)
Definition z_digits (z : Z) : nat :=
  match Z.to_int z with
  | Decimal.Pos u | Decimal.Neg u => Decimal.nb_digits u
  end.

(** Whether [str(z)] is within [int_max_str_digits]. *)
Definition key_fits (z : Z) : bool := Nat.leb (z_digits z) int_max_str_digits.

(** [str(z)]: the decimal form, or [ValueError] for an integer of more than
    [int_max_str_digits] digits. *)
Definition py_str (z : Z) : res string :=
  if Nat.ltb int_max_str_digits (z_digits z) then Raise ValueError
  else Ok (str_of_Z z).

End PyInt.

Import PyInt.

(* ------------------------------------------------------------------ *)
(** ** Paths: [os.path.join] and [datetime.strftime("%Y_%m_%d")] *)

Module Path.

Definition ends_with_sep (a : string) : bool :=
  match rev (list_ascii_of_string a) with
  | c :: _ => Ascii.eqb c "/"%char
  | [] => false
  end.

(** [posixpath.join(a, b)] *)
Definition os_path_join (a b : string) : string :=
  match b with
  | String c _ => if Ascii.eqb c "/"%char then b
                  else if String.eqb a "" || ends_with_sep a then (a ++ b)%string
                  else (a ++ "/" ++ b)%string
  | EmptyString => if String.eqb a "" || ends_with_sep a then a else (a ++ "/")%string
  end.

Fixpoint takewhile (f : ascii -> bool) (l : list ascii) : list ascii :=
  match l with
  | c :: r => if f c then c :: takewhile f r else []
  | [] => []
  end.

(** Text after the last [/] ([os.path.basename]). *)
Definition basename (p : string) : string :=
  string_of_list_ascii
    (rev (takewhile (fun c => negb (Ascii.eqb c "/"%char)) (rev (list_ascii_of_string p)))).

End Path.

Import Path.

(** [datetime.datetime] *)
Record datetime := mkDatetime {
  year : Z; month : Z; day : Z;
  hour : Z; minute : Z; second : Z; microsecond : Z }.

(** [str.zfill]-style left padding with [0] to width [w]. *)
Definition zero_pad (w : nat) (s : string) : string :=
  (string_of_list_ascii (repeat "0"%char (w - String.length s)) ++ s)%string.

(** [date.strftime("%Y_%m_%d")]: [%Y] is the year on four digits
    (0001 ... 9999), [%m] and [%d] on two. *)
Definition strftime_Y_m_d (date : datetime) : string :=
  (zero_pad 4 (str_of_Z (year date)) ++ "_" ++ zero_pad 2 (str_of_Z (month date))
   ++ "_" ++ zero_pad 2 (str_of_Z (day date)))%string.

(** Every character of [s] is a decimal digit. *)
Definition all_digits (s : string) : bool :=
  forallb (fun c => match digit_of c with Some _ => true | None => false end)
          (list_ascii_of_string s).

(** [zero_pad w (str v)] has width [w], only digits, and reads back as [v]. *)
Definition pad_check (w : nat) (v : Z) : bool :=
  let s := zero_pad w (str_of_Z v) in
  Nat.eqb (String.length s) w && all_digits s &&
  match int_of_str s with Ok z => Z.eqb z v | Raise _ => false end.

(** [fnmatch] for patterns whose only wildcard is [*]. *)
Fixpoint fnmatch (pat s : list ascii) : bool :=
  match pat with
  | [] => match s with [] => true | _ => false end
  | c :: pat' =>
      if Ascii.eqb c "*"%char then
        (fix star (s : list ascii) : bool :=
           fnmatch pat' s || match s with [] => false | _ :: s' => star s' end) s
      else match s with
           | c' :: s' => Ascii.eqb c c' && fnmatch pat' s'
           | [] => false
           end
  end.

(** Calendar fields in the ranges [datetime] accepts (days up to 31). *)
Definition valid_date (date : datetime) : Prop :=
  1 <= year date <= 9999 /\ 1 <= month date <= 12 /\ 1 <= day date <= 31.

(** No character of [l] is [/]. *)
Definition no_slash (l : list ascii) : Prop := Forall (fun c => Ascii.eqb c "/"%char = false) l.

(* ------------------------------------------------------------------ *)
(** ** Persisted documents and the generic store *)

Section RateModel.

Context {V : Type}.

(** The value stored under ["rates_import"] / ["rates_export"]: a JSON
    object (a Python dict, string keys in insertion order) or any other
    JSON value, on which [.items()] raises [AttributeError]. *)
Inductive section :=
| SObj (items : list (string * V))
| SOther.

(** A rate document as [load] returns it; [None] is an absent key. *)
Record doc := mkDoc {
  rates_import : option section;
  rates_export : option section;
  last_updated : option string;
  frozen_before_minute : option Z }.

(** Modelled from the spec: the generic store [PersistentStore] whose
    source is not part of this excerpt.  Files map a path to its parsed
    document; [ages] gives each file's age in whole days; [writable]
    says whether writes reach the disk (a failed write changes nothing). *)
Record fs := mkFS {
  files : gmap string doc;
  ages : gmap string nat;
  writable : bool }.

(** Modelled from the spec: [PersistentStore.load(path) -> document | None]. *)
Definition store_load (path : string) (st : fs) : option doc := files st !! path.

(** Modelled from the spec: [PersistentStore.save(path, data, backup) -> bool].
    With [backup] set, the previous version of an existing file is first
    copied to [path ++ ".bak"] (the suffix the tests filter out of their
    directory listings), keeping its age; then [data] is written with age
    0.  A failed write changes nothing. *)
Definition store_save (path : string) (data : doc) (backup : bool) (st : fs) : bool * fs :=
  if writable st
  then
    let '(files0, ages0) :=
      match backup, files st !! path with
      | true, Some old =>
          (<[(path ++ ".bak")%string := old]> (files st),
           <[(path ++ ".bak")%string := default 0%nat (ages st !! path)]> (ages st))
      | _, _ => (files st, ages st)
      end in
    (true, mkFS (<[path := data]> files0) (<[path := 0%nat]> ages0) true)
  else (false, st).

(** Modelled from the spec: [PersistentStore.cleanup(directory, pattern,
    retention_days) -> count]: removes the files of [directory] whose name
    matches [pattern] and whose age exceeds [retention_days]. *)
Definition cleanup_victim (directory pattern : string) (retention_days : nat)
    (st : fs) (path : string) : bool :=
  String.eqb (os_path_join directory (basename path)) path
  && fnmatch (list_ascii_of_string pattern) (list_ascii_of_string (basename path))
  && bool_decide (retention_days < default 0 (ages st !! path))%nat.

Definition store_cleanup (directory pattern : string) (retention_days : nat) (st : fs)
    : nat * fs :=
  let victims := filter (cleanup_victim directory pattern retention_days st)
                        (elements (dom (files st))) in
  (length victims,
   mkFS (foldr delete (files st) victims) (foldr delete (ages st) victims) (writable st)).

(* ------------------------------------------------------------------ *)
(** ** [RateStore] *)

Record RateStore := mkRateStore { save_dir : string }.

(** [_get_filepath] *)
Definition get_filepath (self : RateStore) (date : datetime) : string :=
  let date_str := strftime_Y_m_d date in
  let filename := ("rates_" ++ date_str ++ ".json")%string in
  os_path_join (save_dir self) filename.

(** [{int(k): v for k, v in section.items()}], with
    [data.get(name, {})] giving [None] for an absent key. *)
Definition int_keyed_step (acc : res (gmap Z V)) (kv : string * V) : res (gmap Z V) :=
  let '(k, v) := kv in t ← acc; z ← int_of_str k; Ok (<[z := v]> t).

Definition int_keyed (items : list (string * V)) : res (gmap Z V) :=
  fold_left int_keyed_step items (Ok ∅).

Definition dict_comp (sec : option section) : res (gmap Z V) :=
  match sec with
  | None => Ok ∅
  | Some SOther => Raise AttributeError
  | Some (SObj items) => int_keyed items
  end.

(** [d[k] = v] on a Python dict: update in place or append. *)
Fixpoint dict_set (d : list (string * V)) (k : string) (v : V) : list (string * V) :=
  match d with
  | [] => [(k, v)]
  | (k', v') :: r => if String.eqb k k' then (k, v) :: r else (k', v') :: dict_set r k v
  end.

(** [d[str(minute)] = v]: [str] is evaluated, and may raise, first. *)
Definition set_item (d : list (string * V)) (minute : Z) (v : V) : res (list (string * V)) :=
  k ← py_str minute; Ok (dict_set d k v).

(** One iteration of [for minute in sorted(all_minutes)]. *)
Definition merge_step (existing_import rate_import existing_export rate_export : gmap Z V)
    (freeze_before_minute : Z)
    (acc : list (string * V) * list (string * V)) (minute : Z)
    : res (list (string * V) * list (string * V)) :=
  let '(new_import, new_export) := acc in
  if Z.ltb minute freeze_before_minute then
    new_import ←
      match existing_import !! minute with
      | Some v => set_item new_import minute v
      | None => match rate_import !! minute with
                | Some v => set_item new_import minute v
                | None => Ok new_import end
      end;
    new_export ←
      match existing_export !! minute with
      | Some v => set_item new_export minute v
      | None => match rate_export !! minute with
                | Some v => set_item new_export minute v
                | None => Ok new_export end
      end;
    Ok (new_import, new_export)
  else
    new_import ←
      match rate_import !! minute with
      | Some v => set_item new_import minute v | None => Ok new_import end;
    new_export ←
      match rate_export !! minute with
      | Some v => set_item new_export minute v | None => Ok new_export end;
    Ok (new_import, new_export).

Definition empty_doc : doc := mkDoc (Some (SObj [])) (Some (SObj [])) None None.

(** [save_rates]; [now] is [datetime.now().isoformat()]. *)
Definition save_rates (self : RateStore) (date : datetime) (rate_import rate_export : gmap Z V)
    (freeze_before_minute : Z) (now : string) (st : fs) : res (bool * fs) :=
  let filepath := get_filepath self date in
  let existing_data := match store_load filepath st with
                       | Some d => d | None => empty_doc end in
  existing_import ← dict_comp (rates_import existing_data);
  existing_export ← dict_comp (rates_export existing_data);
  let all_minutes : gset Z := dom existing_import ∪ dom rate_import
                              ∪ dom existing_export ∪ dom rate_export in
  loop ← fold_left (fun acc minute =>
                      p ← acc;
                      merge_step existing_import rate_import existing_export rate_export
                                 freeze_before_minute p minute)
                   (merge_sort Z.le (elements all_minutes)) (Ok ([], []));
  let '(new_import, new_export) := loop in
  let data := mkDoc (Some (SObj new_import)) (Some (SObj new_export))
                    (Some now) (Some freeze_before_minute) in
  Ok (store_save filepath data true st).

(** [load_rates]: [None] stands for the pair [(None, None)]. *)
Definition load_rates (self : RateStore) (date : datetime) (st : fs)
    : res (option (gmap Z V * gmap Z V)) :=
  let filepath := get_filepath self date in
  match store_load filepath st with
  | None => Ok None
  | Some data =>
      rate_import ← dict_comp (rates_import data);
      rate_export ← dict_comp (rates_export data);
      Ok (Some (rate_import, rate_export))
  end.

(** [cleanup_old_files] *)
Definition cleanup_old_files (self : RateStore) (retention_days : nat) (st : fs)
    : res (nat * fs) :=
  Ok (store_cleanup (save_dir self) "rates_*.json" retention_days st).

(** The store after a call of [save_rates] on [st]: a call that raises
    does so before [self.save] and writes nothing. *)
Definition state_after (r : res (bool * fs)) (st : fs) : fs :=
  match r with Ok (_, st') => st' | Raise _ => st end.

End RateModel.

Arguments section : clear implicits.
Arguments doc : clear implicits.
Arguments fs : clear implicits.

(* ------------------------------------------------------------------ *)
(** ** The merge of [save_rates], slot by slot *)

Section MergeDefs.

Context {V : Type}.
Implicit Types (d : list (string * V)).

(** The value the loop of [save_rates] keeps for [m] in one table. *)
Definition frozen_pick (b : Z) (existing fresh : gmap Z V) (m : Z) : option V :=
  if Z.ltb m b then
    match existing !! m with Some v => Some v | None => fresh !! m end
  else fresh !! m.

Definition set_opt d (k : string) (o : option V) : list (string * V) :=
  match o with Some v => dict_set d k v | None => d end.

(** Whether the loop can write [m]: [str(m)] is only computed for a
    minute given a value in one of the tables. *)
Definition writes_ok (b : Z) (ei ri ee re : gmap Z V) (m : Z) : bool :=
  match frozen_pick b ei ri m, frozen_pick b ee re m with
  | None, None => true
  | _, _ => key_fits m
  end.

Definition writes_fit (b : Z) (ei ri ee re : gmap Z V) : Prop :=
  forall m, writes_ok b ei ri ee re m = true.

Definition or_else (a b : option V) : option V :=
  match a with Some _ => a | None => b end.

(** The tables [save_rates] would start from: those of [load_rates], or
    empty ones when no document exists. *)
Definition existing_tables (self : RateStore) (date : datetime) (st : fs V)
    : res (gmap Z V * gmap Z V) :=
  match load_rates self date st with
  | Ok (Some p) => Ok p
  | Ok None => Ok (∅, ∅)
  | Raise e => Raise e
  end.

(** Sections on which [dict_comp] succeeds. *)
Definition section_ok (sec : option (section V)) : Prop :=
  match sec with
  | None => True
  | Some SOther => False
  | Some (SObj items) => Forall (fun kv => exists z, int_of_str kv.1 = Ok z) items
  end.

End MergeDefs.


(* ------------------------------------------------------------------ *)
(** ** Concrete stores (rates as rationals) *)

Module Fixture.

Definition store : RateStore := mkRateStore "predbat_save".
Definition today : datetime := mkDatetime 2026 10 18 13 5 0 0.
Definition fs0 : fs Q := mkFS ∅ ∅ true.
Definition tbl (l : list (Z * Q)) : gmap Z Q := list_to_map l.
Definition after (r : res (bool * fs Q)) : fs Q :=
  match r with Ok (_, s) => s | Raise _ => fs0 end.

(** Scenarios 1 and 2 of the spec. *)
Definition imp1 := tbl [(0, 10#1); (30, 15#1); (60, 20#1); (90, 25#1)].
Definition exp1 := tbl [(0, 5#1); (30, 15#2); (60, 10#1); (90, 25#2)].
Definition imp2 := tbl [(0, 99#1); (30, 99#1); (60, 30#1); (90, 35#1)].
Definition exp2 := tbl [(0, 99#1); (30, 99#1); (60, 15#1); (90, 35#2)].
Definition fs1 := after (save_rates store today imp1 exp1 60 "2026-10-18T13:05:00" fs0).
Definition fs2 := after (save_rates store today imp2 exp2 60 "2026-10-18T13:35:00" fs1).


(** A save that supplies export minute 120 only. *)
Definition exp_only := tbl [(120, 3#1)].
Definition fs_leak := after (save_rates store today imp2 exp_only 60 "2026-10-18T13:35:00" fs1).

(** The document of [fs1] with other metadata: an old timestamp and
    boundary 0. *)
Definition doc1 : doc Q := default empty_doc (store_load (get_filepath store today) fs1).
Definition meta_doc : doc Q :=
  mkDoc (rates_import doc1) (rates_export doc1) (Some "1970-01-01T00:00:00") (Some 0).
Definition fs1_meta : fs Q := mkFS (<[get_filepath store today := meta_doc]> (files fs1)) (ages fs1) true.

End Fixture.

Import Fixture.

Module Malformed.

(** A document whose import section has the key ["abc"]. *)
Definition bad_key_fs : fs Q :=
  mkFS {[ get_filepath store today :=
            mkDoc (Some (SObj [("abc", 10#1)])) (Some (SObj [])) None None ]} ∅ true.

(** A partial document: no import section, an export key ["30.0"]. *)
Definition float_key_fs : fs Q :=
  mkFS {[ get_filepath store today :=
            mkDoc None (Some (SObj [("30.0", 5#1)])) None None ]} ∅ true.

End Malformed.

(** Further concrete stores: a second date, a document whose import
    section repeats minute 30 under different keys, and a first save
    with boundary 30. *)
Module Fixture2.
Definition tomorrow : datetime := mkDatetime 2026 10 19 9 0 0 0.
Definition today_late : datetime := mkDatetime 2026 10 18 23 59 0 0.
Definition dup_doc : doc Q :=
  mkDoc (Some (SObj [("30", 1#1); ("060", 3#1); ("+30", 2#1)])) None None None.
Definition dup_fs : fs Q := mkFS {[ get_filepath store today := dup_doc ]} ∅ true.
Definition fs_adv := after (save_rates store today imp1 exp1 30 "T1" fs0).
End Fixture2.
Import Fixture2.

Example str_of_Z_neg : str_of_Z (-305) = "-305"%string.
Proof. reflexivity. Qed.
Example int_of_str_blank : int_of_str " +1_0 " = Ok 10.
Proof. reflexivity. Qed.
Example int_of_str_bad : int_of_str "1__0" = Raise ValueError.
Proof. reflexivity. Qed.
Example int_of_str_fs_not_stripped : int_of_str (String (ascii_of_nat 28) "30") = Raise ValueError.
Proof. reflexivity. Qed.
Example int_of_str_nbsp_stripped : int_of_str (String (ascii_of_nat 160) "30") = Ok 30.
Proof. reflexivity. Qed.
Example int_of_str_digit_limit :
  int_of_str (string_of_list_ascii (repeat "1"%char 4301)) = Raise ValueError /\
  int_of_str (string_of_list_ascii ("-"%char :: repeat "0"%char 4299 ++ ["7"%char])) = Ok (-7).
Proof. split; vm_compute; reflexivity. Qed.

Section PyIntFacts.

Lemma lstrip_id l : Forall (fun c => is_space c = false) l -> lstrip l = l.
Proof. intros H. inversion H as [|c r Hc Hr]; subst; simpl; [done|]. by rewrite Hc. Qed.

Lemma strip_id l : Forall (fun c => is_space c = false) l -> strip l = l.
Proof.
  intros H. unfold strip. rewrite (lstrip_id l H), lstrip_id.
  - apply rev_involutive.
  - by apply Forall_rev.
Qed.

Lemma chars_of_uint_no_space u : Forall (fun c => is_space c = false) (chars_of_uint u).
Proof. induction u; simpl; constructor; auto. Qed.

Lemma uint_of_chars u : u <> Decimal.Nil -> uint_of (chars_of_uint u) = Some u.
Proof.
  induction u as [|u IH|u IH|u IH|u IH|u IH|u IH|u IH|u IH|u IH|u IH];
    intros Hne; try congruence;
    destruct u; simpl in IH |- *; try reflexivity;
    rewrite IH by discriminate; reflexivity.
Qed.

Lemma to_uint_not_nil p : Pos.to_uint p <> Decimal.Nil.
Proof. intros E. pose proof (DecimalPos.Unsigned.of_to p) as H. rewrite E in H. discriminate. Qed.

Lemma int_of_digits_ok neg u :
  (Decimal.nb_digits u <= int_max_str_digits)%nat ->
  int_of_digits neg u = Ok (Z.of_int (if neg then Decimal.Neg u else Decimal.Pos u)).
Proof.
  intros H. unfold int_of_digits.
  destruct (Nat.ltb_spec int_max_str_digits (Decimal.nb_digits u)); [lia|done].
Qed.

Lemma int_of_str_of_Z z : key_fits z = true -> int_of_str (str_of_Z z) = Ok z.
Proof.
  intros Hf. assert (Hz : Z.of_int (Z.to_int z) = z) by apply DecimalZ.of_to.
  unfold str_of_Z, int_of_str. revert Hf Hz. unfold key_fits, z_digits.
  destruct (Z.to_int z) as [u|u] eqn:E; intros Hf Hz; apply Nat.leb_le in Hf.
  - rewrite list_ascii_of_string_of_list_ascii, strip_id by apply chars_of_uint_no_space.
    assert (u <> Decimal.Nil) as Hu.
    { destruct z; simpl in E; try discriminate; injection E as <-;
      [discriminate|apply to_uint_not_nil]. }
    pose proof (uint_of_chars u Hu) as Hd. rewrite <- Hz.
    destruct u; try congruence; cbn [chars_of_uint] in Hd |- *; rewrite Hd;
      apply (int_of_digits_ok false); exact Hf.
  - rewrite list_ascii_of_string_of_list_ascii, strip_id.
    + assert (u <> Decimal.Nil) as Hu.
      { destruct z; simpl in E; try discriminate. injection E as <-. apply to_uint_not_nil. }
      rewrite uint_of_chars by done. rewrite <- Hz. apply (int_of_digits_ok true). exact Hf.
    + constructor; [reflexivity|apply chars_of_uint_no_space].
Qed.

Lemma chars_of_uint_inj u1 u2 : chars_of_uint u1 = chars_of_uint u2 -> u1 = u2.
Proof.
  revert u2. induction u1; intros u2; destruct u2; simpl; intros H;
    inversion H; f_equal; auto.
Qed.

Lemma str_of_Z_inj z1 z2 : str_of_Z z1 = str_of_Z z2 -> z1 = z2.
Proof.
  intros H. apply (f_equal list_ascii_of_string) in H. unfold str_of_Z in H.
  rewrite <- (DecimalZ.of_to z1), <- (DecimalZ.of_to z2).
  destruct (Z.to_int z1) as [u1|u1], (Z.to_int z2) as [u2|u2];
    rewrite !list_ascii_of_string_of_list_ascii in H.
  - by rewrite (chars_of_uint_inj _ _ H).
  - destruct u1; simpl in H; inversion H.
  - destruct u2; simpl in H; inversion H.
  - injection H as H. by rewrite (chars_of_uint_inj _ _ H).
Qed.

Lemma py_str_eq z : py_str z = if key_fits z then Ok (str_of_Z z) else Raise ValueError.
Proof.
  unfold py_str, key_fits.
  destruct (Nat.ltb_spec int_max_str_digits (z_digits z)),
           (Nat.leb_spec (z_digits z) int_max_str_digits); done || lia.
Qed.

End PyIntFacts.
Section MergeFacts.

Context {V : Type}.
Implicit Types (ei ri ee re T : gmap Z V) (d : list (string * V)).

Lemma merge_step_eq ei ri ee re b ni ne m :
  merge_step ei ri ee re b (ni, ne) m =
  if writes_ok b ei ri ee re m
  then Ok (set_opt ni (str_of_Z m) (frozen_pick b ei ri m),
           set_opt ne (str_of_Z m) (frozen_pick b ee re m))
  else Raise ValueError.
Proof.
  unfold merge_step, writes_ok, frozen_pick, set_item. rewrite py_str_eq.
  destruct (Z.ltb m b); [destruct (ei !! m), (ee !! m)|];
    try destruct (ri !! m); try destruct (re !! m); destruct (key_fits m); reflexivity.
Qed.

Lemma fold_res_raise {A B} (f : A -> B -> res A) ms e :
  fold_left (fun acc m => p ← acc; f p m) ms (Raise e) = Raise e.
Proof. induction ms as [|m ms IH]; [reflexivity|]. exact IH. Qed.

Lemma fold_merge_step ei ri ee re b ms : forall ni ne,
  fold_left (fun acc m => p ← acc; merge_step ei ri ee re b p m) ms (Ok (ni, ne)) =
  if forallb (writes_ok b ei ri ee re) ms
  then Ok (fold_left (fun d m => set_opt d (str_of_Z m) (frozen_pick b ei ri m)) ms ni,
           fold_left (fun d m => set_opt d (str_of_Z m) (frozen_pick b ee re m)) ms ne)
  else Raise ValueError.
Proof.
  induction ms as [|m ms IH]; intros ni ne; [reflexivity|].
  cbn [fold_left forallb]. change (p ← Ok (ni, ne); merge_step ei ri ee re b p m)
    with (merge_step ei ri ee re b (ni, ne) m).
  rewrite merge_step_eq. destruct (writes_ok b ei ri ee re m); cbn [andb].
  - apply IH.
  - apply fold_res_raise.
Qed.

Lemma writes_fit_i b ei ri ee re m v :
  writes_fit b ei ri ee re -> frozen_pick b ei ri m = Some v -> key_fits m = true.
Proof. intros H Hp. specialize (H m). unfold writes_ok in H. by rewrite Hp in H. Qed.

Lemma writes_fit_e b ei ri ee re m v :
  writes_fit b ei ri ee re -> frozen_pick b ee re m = Some v -> key_fits m = true.
Proof.
  intros H Hp. specialize (H m). unfold writes_ok in H. rewrite Hp in H.
  by destruct (frozen_pick b ei ri m).
Qed.

Lemma dict_set_fresh d k v : k ∉ map fst d -> dict_set d k v = d ++ [(k, v)].
Proof.
  induction d as [|[k' v'] d IH]; intros Hk; [reflexivity|].
  simpl in *. rewrite not_elem_of_cons in Hk. destruct Hk as [Hne Hk].
  destruct (String.eqb_spec k k'); [congruence|]. by rewrite IH.
Qed.

Lemma int_keyed_snoc d k v :
  int_keyed (d ++ [(k, v)]) = (t ← int_keyed d; z ← int_of_str k; Ok (<[z := v]> t)).
Proof. unfold int_keyed. by rewrite fold_left_app. Qed.

Lemma fold_set_opt (p : Z -> option V) ms : forall d T,
  (forall m v, p m = Some v -> key_fits m = true) ->
  NoDup ms ->
  (forall k, k ∈ map fst d -> exists z, k = str_of_Z z /\ z ∉ ms) ->
  int_keyed d = Ok T ->
  exists T', int_keyed (fold_left (fun d m => set_opt d (str_of_Z m) (p m)) ms d) = Ok T' /\
    forall m, T' !! m = if decide (m ∈ ms) then or_else (p m) (T !! m) else T !! m.
Proof.
  induction ms as [|m ms IH]; intros d T Hfit Hnd Hkeys Hd.
  - exists T. split; [done|]. intros m. by rewrite decide_False by set_solver.
  - apply NoDup_cons in Hnd as [Hm Hnd].
    assert (Hfresh : str_of_Z m ∉ map fst d).
    { intros Hin. destruct (Hkeys _ Hin) as (z & Hz & Hzn).
      apply str_of_Z_inj in Hz. subst. set_solver. }
    destruct (p m) as [v|] eqn:Hp; simpl; rewrite Hp; simpl.
    + rewrite dict_set_fresh by done.
      destruct (IH (d ++ [(str_of_Z m, v)]) (<[m := v]> T)) as (T' & HT' & Hlk).
      * done.
      * done.
      * intros k Hk. rewrite map_app, elem_of_app in Hk. destruct Hk as [Hk|Hk].
        -- destruct (Hkeys _ Hk) as (z & Hz & Hzn). exists z. split; [done|set_solver].
        -- simpl in Hk. rewrite list_elem_of_singleton in Hk. subst. by exists m.
      * rewrite int_keyed_snoc, Hd. simpl. by rewrite int_of_str_of_Z by eauto.
      * exists T'. split; [done|]. intros m'. rewrite Hlk.
        destruct (decide (m' = m)) as [->|Hne].
        -- rewrite decide_False by done. rewrite decide_True by set_solver.
           by rewrite lookup_insert_eq, Hp.
        -- rewrite lookup_insert_ne by congruence.
           destruct (decide (m' ∈ ms)), (decide (m' ∈ m :: ms)); set_solver.
    + destruct (IH d T) as (T' & HT' & Hlk); [done|done| |done|].
      * intros k Hk. destruct (Hkeys _ Hk) as (z & Hz & Hzn). exists z. split; [done|set_solver].
      * exists T'. split; [done|]. intros m'. rewrite Hlk.
        destruct (decide (m' = m)) as [->|Hne].
        -- rewrite decide_False by done. rewrite decide_True by set_solver. by rewrite Hp.
        -- destruct (decide (m' ∈ ms)), (decide (m' ∈ m :: ms)); set_solver.
Qed.

End MergeFacts.

Section SaveFacts.

Context {V : Type}.
Implicit Types (ei ri ee re T : gmap Z V) (st : fs V).

Lemma loop_table (p : Z -> option V) (S : gset Z) :
  (forall m v, p m = Some v -> key_fits m = true) ->
  (forall m, m ∉ S -> p m = None) ->
  exists T, int_keyed (fold_left (fun d m => set_opt d (str_of_Z m) (p m))
                                 (merge_sort Z.le (elements S)) []) = Ok T /\
            forall m, T !! m = p m.
Proof.
  intros Hfit HS.
  destruct (fold_set_opt p (merge_sort Z.le (elements S)) [] ∅) as (T & HT & Hlk).
  - exact Hfit.
  - rewrite merge_sort_Permutation. apply NoDup_elements.
  - intros k Hk. inversion Hk.
  - reflexivity.
  - exists T. split; [done|]. intros m. rewrite Hlk, lookup_empty.
    destruct (decide (m ∈ merge_sort Z.le (elements S))) as [_|Hn].
    + by destruct (p m).
    + rewrite merge_sort_Permutation, elem_of_elements in Hn. by rewrite HS.
Qed.

Lemma frozen_pick_out b ei ri m : m ∉ dom ei -> m ∉ dom ri -> frozen_pick b ei ri m = None.
Proof.
  rewrite !not_elem_of_dom. intros H1 H2. unfold frozen_pick. rewrite H1, H2.
  by destruct (Z.ltb m b).
Qed.

Lemma save_rates_raise self date ri re b now st e :
  existing_tables self date st = Raise e -> save_rates self date ri re b now st = Raise e.
Proof.
  unfold existing_tables, load_rates, save_rates.
  destruct (store_load (get_filepath self date) st) as [data|]; [|discriminate].
  destruct (dict_comp (rates_import data)); simpl; [|congruence].
  destruct (dict_comp (rates_export data)); simpl; congruence.
Qed.

Lemma writes_fit_forallb b ei ri ee re :
  writes_fit b ei ri ee re <->
  forallb (writes_ok b ei ri ee re)
          (merge_sort Z.le (elements (dom ei ∪ dom ri ∪ dom ee ∪ dom re))) = true.
Proof.
  rewrite forallb_forall. split.
  - intros H m _. apply H.
  - intros H m. destruct (decide (m ∈ dom ei ∪ dom ri ∪ dom ee ∪ dom re)) as [Hm|Hm].
    + apply H. apply list_elem_of_In. rewrite merge_sort_Permutation.
      by apply elem_of_elements.
    + unfold writes_ok. rewrite !frozen_pick_out by set_solver. reflexivity.
Qed.

Lemma save_rates_existing_eq self date ri re b now st ei ee :
  existing_tables self date st = Ok (ei, ee) ->
  save_rates self date ri re b now st =
    let ms := merge_sort Z.le (elements (dom ei ∪ dom ri ∪ dom ee ∪ dom re)) in
    if forallb (writes_ok b ei ri ee re) ms
    then Ok (store_save (get_filepath self date)
               (mkDoc (Some (SObj (fold_left (fun d m => set_opt d (str_of_Z m)
                                                (frozen_pick b ei ri m)) ms [])))
                      (Some (SObj (fold_left (fun d m => set_opt d (str_of_Z m)
                                                (frozen_pick b ee re m)) ms [])))
                      (Some now) (Some b)) true st)
    else Raise ValueError.
Proof.
  intros Hex.
  assert (Hin : (existing_import ← dict_comp (rates_import
                   (match store_load (get_filepath self date) st with
                    | Some d => d | None => empty_doc end));
                 existing_export ← dict_comp (rates_export
                   (match store_load (get_filepath self date) st with
                    | Some d => d | None => empty_doc end));
                 Ok (existing_import, existing_export)) = Ok (ei, ee)).
  { unfold existing_tables, load_rates in Hex.
    destruct (store_load (get_filepath self date) st) as [data|]; [|by injection Hex as <- <-].
    destruct (dict_comp (rates_import data)); simpl in *; [|done].
    destruct (dict_comp (rates_export data)); simpl in *; done. }
  unfold save_rates.
  destruct (dict_comp (rates_import _)) as [ei'|]; simpl in Hin |- *; [|done].
  destruct (dict_comp (rates_export _)) as [ee'|]; simpl in Hin |- *; [|done].
  injection Hin as -> ->.
  rewrite fold_merge_step. cbv zeta.
  by destruct (forallb _ _).
Qed.

Lemma save_rates_ok self date ri re b now st ei ee :
  existing_tables self date st = Ok (ei, ee) ->
  writes_fit b ei ri ee re ->
  exists ni ne Ti Te,
    save_rates self date ri re b now st =
      Ok (store_save (get_filepath self date)
                     (mkDoc (Some (SObj ni)) (Some (SObj ne)) (Some now) (Some b)) true st) /\
    int_keyed ni = Ok Ti /\ int_keyed ne = Ok Te /\
    (forall m, Ti !! m = frozen_pick b ei ri m) /\
    (forall m, Te !! m = frozen_pick b ee re m).
Proof.
  intros Hex Hfit.
  rewrite (save_rates_existing_eq _ _ _ _ _ _ _ _ _ Hex). cbv zeta.
  pose proof Hfit as Hfb. apply writes_fit_forallb in Hfb. rewrite Hfb.
  set (S := dom ei ∪ dom ri ∪ dom ee ∪ dom re).
  destruct (loop_table (frozen_pick b ei ri) S) as (Ti & HTi & Hli).
  { intros m v. exact (writes_fit_i b ei ri ee re m v Hfit). }
  { intros m Hm. apply frozen_pick_out; set_solver. }
  destruct (loop_table (frozen_pick b ee re) S) as (Te & HTe & Hle).
  { intros m v. exact (writes_fit_e b ei ri ee re m v Hfit). }
  { intros m Hm. apply frozen_pick_out; set_solver. }
  eexists _, _, Ti, Te. split; [reflexivity|]. done.
Qed.

Lemma save_rates_unfit self date ri re b now st ei ee :
  existing_tables self date st = Ok (ei, ee) ->
  ~ writes_fit b ei ri ee re ->
  save_rates self date ri re b now st = Raise ValueError.
Proof.
  intros Hex Hn. rewrite (save_rates_existing_eq _ _ _ _ _ _ _ _ _ Hex). cbv zeta.
  destruct (forallb _ _) eqn:F; [|reflexivity].
  exfalso. apply Hn. by apply writes_fit_forallb.
Qed.

Lemma save_rates_Ok_inv self date ri re b now st r :
  save_rates self date ri re b now st = Ok r ->
  exists ei ee, existing_tables self date st = Ok (ei, ee) /\ writes_fit b ei ri ee re.
Proof.
  intros H. destruct (existing_tables self date st) as [[ei ee]|e] eqn:Hex.
  - exists ei, ee. split; [done|].
    rewrite (save_rates_existing_eq _ _ _ _ _ _ _ _ _ Hex) in H. cbv zeta in H.
    destruct (forallb _ _) eqn:F; [|discriminate]. by apply writes_fit_forallb.
  - by rewrite (save_rates_raise _ _ _ _ _ _ _ _ Hex) in H.
Qed.

Lemma store_save_lookup path data backup st ok st' :
  store_save path data backup st = (ok, st') ->
  (ok = true /\ writable st = true /\ files st' !! path = Some data /\ writable st' = true)
  \/ (ok = false /\ writable st = false /\ st' = st).
Proof.
  unfold store_save. destruct (writable st); [|intros [= <- <-]; by right].
  destruct backup, (files st !! path); intros [= <- <-]; left; simpl;
    by rewrite lookup_insert_eq.
Qed.

(** [load_rates] right after a [save_rates] that did not raise. *)
Lemma load_after_save self date ri re b now st ei ee ok st' :
  existing_tables self date st = Ok (ei, ee) ->
  save_rates self date ri re b now st = Ok (ok, st') ->
  (ok = true /\ exists Ti Te, load_rates self date st' = Ok (Some (Ti, Te)) /\
     (forall m, Ti !! m = frozen_pick b ei ri m) /\ (forall m, Te !! m = frozen_pick b ee re m))
  \/ (ok = false /\ st' = st).
Proof.
  intros Hex Hsave.
  destruct (save_rates_Ok_inv _ _ _ _ _ _ _ _ Hsave) as (ei' & ee' & Hex' & Hfit).
  rewrite Hex in Hex'. injection Hex' as <- <-.
  destruct (save_rates_ok self date ri re b now st ei ee Hex Hfit)
    as (ni & ne & Ti & Te & Hs & Hni & Hne & Hli & Hle).
  rewrite Hs in Hsave. injection Hsave as Hsave.
  destruct (store_save_lookup _ _ _ _ _ _ Hsave) as [(-> & _ & Hf & _)|(-> & _ & ->)];
    [left|right; done].
  split; [done|]. exists Ti, Te. split; [|done].
  unfold load_rates, store_load. rewrite Hf. simpl.
  by rewrite Hni, Hne.
Qed.

End SaveFacts.

Section StoreFacts.

Context {V : Type}.
Implicit Types (ei ri ee re T : gmap Z V) (st : fs V).

Lemma existing_of_load self date st I E :
  load_rates self date st = Ok (Some (I, E)) -> existing_tables self date st = Ok (I, E).
Proof. unfold existing_tables. by intros ->. Qed.

Lemma existing_tables_ok self date st :
  (exists r, load_rates self date st = Ok r) -> exists ei ee, existing_tables self date st = Ok (ei, ee).
Proof.
  intros [[[I E]|] Hr]; unfold existing_tables; rewrite Hr; eauto.
Qed.

(** A save whose boundary exceeds [m] keeps [m] where it is stored. *)
Lemma save_keeps_frozen self date ri re b now st I E m :
  load_rates self date st = Ok (Some (I, E)) -> m < b ->
  exists I' E',
    load_rates self date (state_after (save_rates self date ri re b now st) st)
      = Ok (Some (I', E')) /\
    (forall v, I !! m = Some v -> I' !! m = Some v) /\
    (forall v, E !! m = Some v -> E' !! m = Some v).
Proof.
  intros Hl Hm. pose proof (existing_of_load _ _ _ _ _ Hl) as Hex.
  destruct (save_rates self date ri re b now st) as [[ok st']|e] eqn:Hsave; simpl;
    [|by exists I, E].
  destruct (load_after_save self date ri re b now st I E ok st' Hex Hsave)
    as [(-> & Ti' & Te' & Hl' & Hli & Hle)|(-> & ->)].
  - exists Ti', Te'. split; [done|].
    split; intros v Hv; [rewrite Hli|rewrite Hle]; unfold frozen_pick;
      (destruct (Z.ltb_spec m b); [|lia]); by rewrite Hv.
  - by exists I, E.
Qed.


Lemma int_keyed_raise (items : list (string * V)) e :
  fold_left int_keyed_step items (Raise e) = Raise e.
Proof. induction items as [|[k v] items IH]; simpl; auto. Qed.

Lemma int_keyed_from_ok (items : list (string * V)) : forall t0,
  (exists T, fold_left int_keyed_step items (Ok t0) = Ok T)
  <-> Forall (fun kv => exists z, int_of_str kv.1 = Ok z) items.
Proof.
  induction items as [|[k v] items IH]; intros t0; simpl.
  - split; [constructor|eauto].
  - rewrite Forall_cons. simpl. destruct (int_of_str k) as [z|e]; simpl.
    + rewrite IH. split; [eauto|tauto].
    + rewrite int_keyed_raise. split; [intros [T HT]; discriminate|].
      intros [[z Hz] _]. discriminate.
Qed.

Lemma dict_comp_ok (sec : option (section V)) :
  (exists T, dict_comp sec = Ok T) <-> section_ok sec.
Proof.
  destruct sec as [[items|]|]; simpl.
  - apply int_keyed_from_ok.
  - split; [intros [T HT]; discriminate|done].
  - split; eauto.
Qed.

(** [load_rates] only reads the two rate sections of the document. *)
Lemma load_rates_sections self date st1 st2 d1 d2 :
  store_load (get_filepath self date) st1 = Some d1 ->
  store_load (get_filepath self date) st2 = Some d2 ->
  rates_import d1 = rates_import d2 -> rates_export d1 = rates_export d2 ->
  load_rates self date st1 = load_rates self date st2.
Proof. intros H1 H2 Hi He. unfold load_rates. by rewrite H1, H2, Hi, He. Qed.

End StoreFacts.
Section MoreFacts.

Context {V : Type}.

Lemma save_rates_writable self date (ri re : gmap Z V) b now (st st' : fs V) ok :
  save_rates self date ri re b now st = Ok (ok, st') ->
  ok = writable st /\ (ok = false -> st' = st).
Proof.
  intros Hr.
  destruct (save_rates_Ok_inv _ _ _ _ _ _ _ _ Hr) as (ei & ee & Hex & Hfit).
  destruct (save_rates_ok self date ri re b now st ei ee Hex Hfit) as (ni & ne & _ & _ & Hs & _).
  rewrite Hs in Hr. injection Hr as Hr.
  destruct (store_save_lookup _ _ _ _ _ _ Hr) as [(-> & -> & _)|(-> & -> & ->)]; done.
Qed.

Lemma frozen_pick_again b (ei I T : gmap Z V) :
  (forall m, T !! m = frozen_pick b ei I m) -> forall m, frozen_pick b T I m = T !! m.
Proof.
  intros HT m. unfold frozen_pick at 1. rewrite HT. unfold frozen_pick.
  destruct (Z.ltb m b); [|done]. destruct (ei !! m); [done|]. by destruct (I !! m).
Qed.

End MoreFacts.

Section FitFacts.

Context {V : Type}.
Implicit Types (ei ri ee re T : gmap Z V) (st : fs V).

Lemma nb_digits_unorm_le u :
  (Decimal.nb_digits (Decimal.unorm u) <= Nat.max 1 (Decimal.nb_digits u))%nat.
Proof.
  destruct u; [cbn; lia|..];
    (etransitivity; [apply DecimalFacts.nb_digits_unorm; discriminate|lia]).
Qed.

Lemma int_of_digits_fits neg u z : int_of_digits neg u = Ok z -> key_fits z = true.
Proof.
  unfold int_of_digits, key_fits, z_digits.
  destruct (Nat.ltb_spec int_max_str_digits (Decimal.nb_digits u)) as [_|Hle];
    [discriminate|].
  intros [= <-]. rewrite DecimalZ.to_of. apply Nat.leb_le.
  unfold int_max_str_digits in *. destruct neg; cbn [Decimal.norm].
  - pose proof (DecimalFacts.nb_digits_nzhead u).
    destruct (Decimal.nzhead u); cbn in *; lia.
  - pose proof (nb_digits_unorm_le u). lia.
Qed.

(** Every integer [int()] returns has at most [int_max_str_digits] digits. *)
Lemma int_of_str_fits k z : int_of_str k = Ok z -> key_fits z = true.
Proof.
  unfold int_of_str. intros H.
  repeat case_match; try discriminate; eapply int_of_digits_fits; eauto.
Qed.

Lemma int_keyed_fits (items : list (string * V)) : forall t0 T,
  (forall m v, t0 !! m = Some v -> key_fits m = true) ->
  fold_left int_keyed_step items (Ok t0) = Ok T ->
  forall m v, T !! m = Some v -> key_fits m = true.
Proof.
  induction items as [|[k w] items IH]; intros t0 T H0 HT; simpl in HT.
  - by injection HT as <-.
  - destruct (int_of_str k) as [z|e] eqn:Hz; simpl in HT;
      [|by rewrite int_keyed_raise in HT].
    revert HT. apply IH. intros m v Hv.
    destruct (decide (m = z)) as [->|Hne]; [by eapply int_of_str_fits|].
    rewrite lookup_insert_ne in Hv by congruence. eauto.
Qed.

Lemma dict_comp_fits (sec : option (section V)) T :
  dict_comp sec = Ok T -> forall m v, T !! m = Some v -> key_fits m = true.
Proof.
  destruct sec as [[items|]|]; simpl; [|discriminate|].
  - apply int_keyed_fits. intros m v. by rewrite lookup_empty.
  - intros [= <-] m v. by rewrite lookup_empty.
Qed.

Lemma existing_fits self date st ei ee :
  existing_tables self date st = Ok (ei, ee) ->
  (forall m v, ei !! m = Some v -> key_fits m = true) /\
  (forall m v, ee !! m = Some v -> key_fits m = true).
Proof.
  unfold existing_tables, load_rates.
  destruct (store_load (get_filepath self date) st) as [data|];
    [|intros [= <- <-]; split; intros m v; by rewrite lookup_empty].
  destruct (dict_comp (rates_import data)) as [Ti|] eqn:Hi; simpl; [|discriminate].
  destruct (dict_comp (rates_export data)) as [Te|] eqn:He; simpl; [|discriminate].
  intros [= <- <-]. split; eapply dict_comp_fits; eauto.
Qed.

Lemma frozen_pick_some b (e r : gmap Z V) m w :
  frozen_pick b e r m = Some w -> e !! m = Some w \/ r !! m = Some w.
Proof.
  unfold frozen_pick. destruct (Z.ltb m b); [|auto].
  destruct (e !! m); intros H; [left|right]; congruence.
Qed.

(** The loop can raise only on a supplied minute of more than
    [int_max_str_digits] digits. *)
Lemma writes_fit_supplied self date st b ei ri ee re :
  existing_tables self date st = Ok (ei, ee) ->
  writes_fit b ei ri ee re <-> (forall m, m ∈ dom ri ∪ dom re -> key_fits m = true).
Proof.
  intros Hex. destruct (existing_fits _ _ _ _ _ Hex) as [Fi Fe]. split.
  - intros Hf m Hm. destruct (key_fits m) eqn:Hk; [done|].
    specialize (Hf m). unfold writes_ok in Hf.
    rewrite elem_of_union, !elem_of_dom in Hm.
    destruct Hm as [[v Hv]|[v Hv]].
    + destruct (ei !! m) as [w|] eqn:Hw; [by rewrite (Fi m w Hw) in Hk|].
      assert (Hp : frozen_pick b ei ri m = Some v)
        by (unfold frozen_pick; rewrite Hw, Hv; by destruct (Z.ltb m b)).
      rewrite Hp, Hk in Hf. discriminate.
    + destruct (ee !! m) as [w|] eqn:Hw; [by rewrite (Fe m w Hw) in Hk|].
      assert (Hq : frozen_pick b ee re m = Some v)
        by (unfold frozen_pick; rewrite Hw, Hv; by destruct (Z.ltb m b)).
      rewrite Hq, Hk in Hf. by destruct (frozen_pick b ei ri m).
  - intros Hs m. unfold writes_ok.
    destruct (frozen_pick b ei ri m) as [w|] eqn:Hp.
    + destruct (frozen_pick_some _ _ _ _ _ Hp) as [Hw|Hw]; [by eapply Fi|].
      apply Hs. apply elem_of_union_l, elem_of_dom. eauto.
    + destruct (frozen_pick b ee re m) as [w|] eqn:Hq; [|done].
      destruct (frozen_pick_some _ _ _ _ _ Hq) as [Hw|Hw]; [by eapply Fe|].
      apply Hs. apply elem_of_union_r, elem_of_dom. eauto.
Qed.

(** Given readable existing tables, [save_rates] returns exactly when
    every supplied minute has at most [int_max_str_digits] digits. *)
Lemma save_rates_returns self date ri re b now st ei ee :
  existing_tables self date st = Ok (ei, ee) ->
  (exists r, save_rates self date ri re b now st = Ok r) <->
  (forall m, m ∈ dom ri ∪ dom re -> key_fits m = true).
Proof.
  intros Hex. rewrite <- (writes_fit_supplied self date st b ei ri ee re Hex). split.
  - intros [r Hr]. destruct (save_rates_Ok_inv _ _ _ _ _ _ _ _ Hr) as (ei' & ee' & Hex' & Hf).
    rewrite Hex in Hex'. by injection Hex' as <- <-.
  - intros Hf. destruct (save_rates_ok self date ri re b now st ei ee Hex Hf)
      as (ni & ne & _ & _ & Hs & _). eauto.
Qed.

Lemma save_rates_supplied_fit self date ri re b now st r :
  save_rates self date ri re b now st = Ok r ->
  forall m, m ∈ dom ri ∪ dom re -> key_fits m = true.
Proof.
  intros Hr. destruct (save_rates_Ok_inv _ _ _ _ _ _ _ _ Hr) as (ei & ee & Hex & _).
  apply (save_rates_returns self date ri re b now st ei ee Hex). eauto.
Qed.

(** A save that returns [True] stores, for each minute at or past its
    boundary, exactly the supplied value. *)
Lemma save_live_slot self date ri re b now st st' m :
  save_rates self date ri re b now st = Ok (true, st') -> b <= m ->
  exists I' E', load_rates self date st' = Ok (Some (I', E')) /\
                I' !! m = ri !! m /\ E' !! m = re !! m.
Proof.
  intros Hsave Hm.
  destruct (existing_tables self date st) as [[ei ee]|e] eqn:Hex.
  - destruct (load_after_save self date ri re b now st ei ee true st' Hex Hsave)
      as [(_ & I' & E' & Hl & Hli & Hle)|[? _]]; [|discriminate].
    exists I', E'. split; [done|]. rewrite Hli, Hle. unfold frozen_pick.
    destruct (Z.ltb_spec m b); [lia|done].
  - rewrite (save_rates_raise self date ri re b now st e Hex) in Hsave. discriminate.
Qed.

End FitFacts.



Lemma pad_check_range w lo n :
  forallb (pad_check w) (map Z.of_nat (seq lo n)) = true ->
  forall v, Z.of_nat lo <= v < Z.of_nat lo + Z.of_nat n -> pad_check w v = true.
Proof.
  intros H v Hv. rewrite forallb_forall in H. apply H.
  apply in_map_iff. exists (Z.to_nat v). split; [lia|]. apply in_seq. lia.
Qed.

Lemma pad_check_spec w v :
  pad_check w v = true ->
  String.length (zero_pad w (str_of_Z v)) = w /\ all_digits (zero_pad w (str_of_Z v)) = true /\
  int_of_str (zero_pad w (str_of_Z v)) = Ok v.
Proof.
  unfold pad_check. intros H. apply andb_prop in H as [H Hz]. apply andb_prop in H as [Hl Hd].
  apply Nat.eqb_eq in Hl. split; [done|]. split; [done|].
  destruct (int_of_str _) as [z|]; [|discriminate]. apply Z.eqb_eq in Hz. by subst.
Qed.

Lemma year_field_ok v : 1 <= v <= 9999 -> pad_check 4 v = true.
Proof.
  intros Hv. apply (pad_check_range 4 1 (Z.to_nat 9999)); [vm_compute; reflexivity|].
  rewrite Z2Nat.id by lia. lia.
Qed.

Lemma month_day_field_ok v : 1 <= v <= 31 -> pad_check 2 v = true.
Proof. intros Hv. apply (pad_check_range 2 1 31); [vm_compute; reflexivity|lia]. Qed.


Example scenario2_load :
  load_rates store today fs2 =
  Ok (Some (tbl [(0, 10#1); (30, 15#1); (60, 30#1); (90, 35#1)],
            tbl [(0, 5#1); (30, 15#2); (60, 15#1); (90, 35#2)])).
Proof. reflexivity. Qed.

(* ------------------------------------------------------------------ *)
(** ** Claims *)




(** C2.  Two saves on the same date with the same boundary [b]: a minute
    [m < b] that has a value after the first save has that same value, in
    each table, after the second save, whatever the second table says.
    The store after the second save is [state_after]: the one it writes
    when it returns (it does whenever its minutes have at most
    [int_max_str_digits] digits), the unchanged store when [str(minute)]
    raises before the write. *)
Theorem freeze_invariant_same_boundary {V : Type} self date (T1i T1e T2i T2e : gmap Z V)
    b now1 now2 (st : fs V) ok1 st1 I1 E1 m :
  m < b ->
  save_rates self date T1i T1e b now1 st = Ok (ok1, st1) ->
  load_rates self date st1 = Ok (Some (I1, E1)) ->
  ((forall m', m' ∈ dom T2i ∪ dom T2e -> key_fits m' = true) ->
   exists r, save_rates self date T2i T2e b now2 st1 = Ok r) /\
  exists I2 E2,
    load_rates self date (state_after (save_rates self date T2i T2e b now2 st1) st1)
      = Ok (Some (I2, E2)) /\
    (forall v, I1 !! m = Some v -> I2 !! m = Some v) /\
    (forall v, E1 !! m = Some v -> E2 !! m = Some v).
Proof.
  intros Hm _ Hl. split.
  - apply (save_rates_returns self date T2i T2e b now2 st1 I1 E1 (existing_of_load _ _ _ _ _ Hl)).
  - by apply save_keeps_frozen.
Qed.

Lemma freeze_invariant_same_boundary_witness :
  0 < 60 /\
  save_rates store today imp1 exp1 60 "2026-10-18T13:05:00" fs0 = Ok (true, fs1) /\
  load_rates store today fs1 = Ok (Some (imp1, exp1)) /\
  ((forall m', m' ∈ dom imp2 ∪ dom exp2 -> key_fits m' = true) ->
   exists r, save_rates store today imp2 exp2 60 "t2" fs1 = Ok r) /\
  exists I2 E2,
    load_rates store today (state_after (save_rates store today imp2 exp2 60 "t2" fs1) fs1)
      = Ok (Some (I2, E2)) /\
    (forall v, imp1 !! 0 = Some v -> I2 !! 0 = Some v) /\
    (forall v, exp1 !! 0 = Some v -> E2 !! 0 = Some v).
Proof.
  split; [lia|]. split; [reflexivity|]. split; [reflexivity|].
  apply (freeze_invariant_same_boundary store today imp1 exp1 imp2 exp2 60
           "2026-10-18T13:05:00" "t2"
           fs0 true fs1 imp1 exp1 0); [lia|reflexivity|reflexivity].
Defined.

(** C3.  After a [save_rates] with boundary [b] that succeeds (returns
    [True]), each minute [m >= b] holds exactly the value the call supplied
    for it, in the import and in the export table, and is absent when the
    call did not supply it, whatever was stored before. *)
Theorem live_slot_overwrite {V : Type} self date (ri re : gmap Z V) b now (st st' : fs V) m :
  save_rates self date ri re b now st = Ok (true, st') -> b <= m ->
  exists I' E', load_rates self date st' = Ok (Some (I', E')) /\
                I' !! m = ri !! m /\ E' !! m = re !! m.
Proof. apply save_live_slot. Qed.

Lemma live_slot_overwrite_witness :
  save_rates store today imp2 exp2 60 "2026-10-18T13:35:00" fs1 = Ok (true, fs2) /\ 60 <= 60 /\
  exists I' E', load_rates store today fs2 = Ok (Some (I', E')) /\
                I' !! 60 = imp2 !! 60 /\ E' !! 60 = exp2 !! 60.
Proof.
  split; [reflexivity|]. split; [lia|].
  apply (live_slot_overwrite store today imp2 exp2 60 "2026-10-18T13:35:00" fs1 fs2 60);
    [reflexivity|lia].
Defined.

(** C4 counterexample: the document already holds 10 for import minute 0;
    saving 99 there with boundary 60 and loading back gives 10, which is
    not within 0.01 of 99. *)
Lemma roundtrip_fails_on_frozen_minute :
  save_rates store today imp2 exp2 60 "2026-10-18T13:35:00" fs1 = Ok (true, fs2) /\
  exists I' E', load_rates store today fs2 = Ok (Some (I', E')) /\
    imp2 !! 0 = Some (99#1) /\ I' !! 0 = Some (10#1) /\ Qlt (1#100) (Qabs (Qminus (10#1) (99#1))).
Proof.
  split; [reflexivity|].
  eexists _, _. split; [reflexivity|]. repeat split; reflexivity.
Qed.

(** C4 (amended).  After a successful [save_rates date I E b], [load_rates
    date] returns tables [(I', E')] in which every minute of [I] has exactly
    [I]'s value, unless the minute is below [b] and the import table
    already stored a value for it: then that stored value is kept instead
    of [I]'s; likewise for [E].  On a date without a document the round
    trip is exact. *)
Theorem roundtrip_unfrozen {V : Type} self date (I E : gmap Z V) b now (st st' : fs V) ei ee :
  existing_tables self date st = Ok (ei, ee) ->
  save_rates self date I E b now st = Ok (true, st') ->
  exists I' E', load_rates self date st' = Ok (Some (I', E')) /\
    (forall m v, I !! m = Some v -> b <= m \/ ei !! m = None -> I' !! m = Some v) /\
    (forall m v, E !! m = Some v -> b <= m \/ ee !! m = None -> E' !! m = Some v) /\
    (forall m w, m < b -> ei !! m = Some w -> I' !! m = Some w) /\
    (forall m w, m < b -> ee !! m = Some w -> E' !! m = Some w) /\
    (store_load (get_filepath self date) st = None -> I' = I /\ E' = E).
Proof.
  intros Hex Hsave.
  destruct (load_after_save self date I E b now st ei ee true st' Hex Hsave)
    as [(_ & I' & E' & Hl & Hli & Hle)|[? _]]; [|discriminate].
  exists I', E'. split; [done|].
  split; [|split; [|split; [|split]]].
  - intros m v Hv Hm. rewrite Hli. unfold frozen_pick.
    destruct (Z.ltb_spec m b) as [Hlt|]; [|done].
    destruct Hm as [Hb | Hn]; [lia|]. by rewrite Hn.
  - intros m v Hv Hm. rewrite Hle. unfold frozen_pick.
    destruct (Z.ltb_spec m b) as [Hlt|]; [|done].
    destruct Hm as [Hb | Hn]; [lia|]. by rewrite Hn.
  - intros m w Hm Hw. rewrite Hli. unfold frozen_pick.
    destruct (Z.ltb_spec m b); [|lia]. by rewrite Hw.
  - intros m w Hm Hw. rewrite Hle. unfold frozen_pick.
    destruct (Z.ltb_spec m b); [|lia]. by rewrite Hw.
  - intros Hnone. unfold existing_tables, load_rates in Hex. rewrite Hnone in Hex.
    injection Hex as <- <-.
    split; apply map_eq; intros m; [rewrite Hli|rewrite Hle]; unfold frozen_pick;
      rewrite lookup_empty; by destruct (Z.ltb m b).
Qed.

Lemma roundtrip_unfrozen_witness :
  existing_tables store today fs1 = Ok (imp1, exp1) /\
  save_rates store today imp2 exp2 60 "2026-10-18T13:35:00" fs1 = Ok (true, fs2) /\
  exists I' E', load_rates store today fs2 = Ok (Some (I', E')) /\
    (forall m v, imp2 !! m = Some v -> 60 <= m \/ imp1 !! m = None -> I' !! m = Some v) /\
    (forall m v, exp2 !! m = Some v -> 60 <= m \/ exp1 !! m = None -> E' !! m = Some v) /\
    (forall m w, m < 60 -> imp1 !! m = Some w -> I' !! m = Some w) /\
    (forall m w, m < 60 -> exp1 !! m = Some w -> E' !! m = Some w) /\
    (store_load (get_filepath store today) fs1 = None -> I' = imp2 /\ E' = exp2).
Proof.
  split; [reflexivity|]. split; [reflexivity|].
  apply (roundtrip_unfrozen store today imp2 exp2 60 "2026-10-18T13:35:00" fs1 fs2 imp1 exp1);
    reflexivity.
Defined.


(** C5 counterexample: with a persisted minute-key ["abc"], [int(k)] raises
    [ValueError] inside both [save_rates] and [load_rates]. *)
Lemma unparsable_key_raises :
  save_rates store today imp1 exp1 60 "2026-10-18T13:05:00" Malformed.bad_key_fs
    = Raise ValueError /\
  load_rates store today Malformed.bad_key_fs = Raise ValueError.
Proof. split; reflexivity. Qed.

(** C5 (amended).  [cleanup_old_files] never raises.  With no document at
    the date's path, [load_rates] returns the sentinel [(None, None)].
    [load_rates] returns a value (no exception) exactly when the stored
    document of the date, if any, has [rates_import] and [rates_export]
    sections that are absent or objects whose keys [int()] accepts;
    [save_rates] returns exactly when, in addition, every minute it is
    given has at most [int_max_str_digits] digits (else [str(minute)]
    raises).  A failed write is reported as [False] with the store
    unchanged.  Otherwise both raise. *)
Theorem exceptions_only_from_malformed_sections {V : Type} self date (ri re : gmap Z V) b now
    (st : fs V) retention :
  (exists r, cleanup_old_files self retention st = Ok r) /\
  (store_load (get_filepath self date) st = None -> load_rates self date st = Ok None) /\
  ((forall data, store_load (get_filepath self date) st = Some data ->
                 section_ok (rates_import data) /\ section_ok (rates_export data))
   <-> exists r, load_rates self date st = Ok r) /\
  (((forall data, store_load (get_filepath self date) st = Some data ->
                  section_ok (rates_import data) /\ section_ok (rates_export data)) /\
    (forall m, m ∈ dom ri ∪ dom re -> key_fits m = true))
   <-> exists r, save_rates self date ri re b now st = Ok r) /\
  (writable st = false ->
   forall r, save_rates self date ri re b now st = Ok r -> r = (false, st)).
Proof.
  assert (Hload : (forall data, store_load (get_filepath self date) st = Some data ->
                     section_ok (rates_import data) /\ section_ok (rates_export data))
                  <-> exists r, load_rates self date st = Ok r).
  { unfold load_rates. destruct (store_load (get_filepath self date) st) as [data|].
    - split.
      + intros H. destruct (H data eq_refl) as [Hi He].
        apply dict_comp_ok in Hi as [Ti ->]. apply dict_comp_ok in He as [Te ->]. simpl. eauto.
      + intros [r Hr] d [= <-].
        destruct (dict_comp (rates_import data)) as [Ti|] eqn:Hi; simpl in Hr; [|discriminate].
        destruct (dict_comp (rates_export data)) as [Te|] eqn:He; simpl in Hr; [|discriminate].
        split; apply dict_comp_ok; eauto.
    - split; [eauto|]. intros _ d Hd. discriminate. }
  split; [unfold cleanup_old_files; eauto|].
  split; [unfold load_rates; by intros ->|].
  split; [exact Hload|]. split.
  - rewrite Hload. split.
    + intros [Hl Hfit]. destruct (existing_tables_ok self date st Hl) as (ei & ee & Hex).
      by apply (save_rates_returns self date ri re b now st ei ee Hex).
    + intros [r Hr]. split; [|exact (save_rates_supplied_fit _ _ _ _ _ _ _ _ Hr)].
      destruct (load_rates self date st) as [lr|e] eqn:Hl; [eauto|].
      rewrite (save_rates_raise self date ri re b now st e) in Hr; [discriminate|].
      unfold existing_tables. by rewrite Hl.
  - intros Hw [ok st'] Hr.
    destruct (save_rates_writable self date ri re b now st st' ok Hr) as [Hok Hst].
    rewrite Hw in Hok. subst ok. by rewrite Hst.
Qed.

(** C6 counterexample: a partial document (no import section) whose export
    key ["30.0"] is not an integer literal makes [load_rates] raise. *)
Lemma partial_document_float_key_raises :
  load_rates store today Malformed.float_key_fs = Raise ValueError.
Proof. reflexivity. Qed.

(** C6 (amended).  With no document at the date's path [load_rates] returns
    the sentinel [(None, None)].  With a document whose sections are absent
    or objects with integer keys, it returns two tables, an absent section
    giving an empty table.  A section that is not an object, or that has a
    key [int()] rejects, makes it raise. *)
Theorem load_rates_sentinel_and_defaults {V : Type} self date (st : fs V) :
  (store_load (get_filepath self date) st = None -> load_rates self date st = Ok None) /\
  (forall data, store_load (get_filepath self date) st = Some data ->
     section_ok (rates_import data) -> section_ok (rates_export data) ->
     exists I E, load_rates self date st = Ok (Some (I, E)) /\
       (rates_import data = None -> I = ∅) /\ (rates_export data = None -> E = ∅)) /\
  (forall data, store_load (get_filepath self date) st = Some data ->
     ~ (section_ok (rates_import data) /\ section_ok (rates_export data)) ->
     exists e, load_rates self date st = Raise e).
Proof.
  unfold load_rates. split; [|split].
  - intros ->. reflexivity.
  - intros data -> Hi He.
    apply dict_comp_ok in Hi as [I HI]. apply dict_comp_ok in He as [E HE].
    rewrite HI, HE. simpl. exists I, E. split; [done|].
    split; intros Hn; rewrite Hn in *; simpl in *; congruence.
  - intros data -> Hn.
    destruct (dict_comp (rates_import data)) as [I|e] eqn:HI; simpl; [|eauto].
    destruct (dict_comp (rates_export data)) as [E|e] eqn:HE; simpl; [|eauto].
    exfalso. apply Hn. split; apply dict_comp_ok; eauto.
Qed.


(** C7.  Saving the same [(I, E, b)] twice in a row on a date gives the
    same [load_rates] result as saving it once (the second call, at any
    later time, does not raise and does not change the stored tables). *)
Theorem repeated_save_idempotent {V : Type} self date (I E : gmap Z V) b now1 now2
    (st st1 : fs V) ok1 :
  save_rates self date I E b now1 st = Ok (ok1, st1) ->
  exists ok2 st2, save_rates self date I E b now2 st1 = Ok (ok2, st2) /\
                  load_rates self date st2 = load_rates self date st1.
Proof.
  intros H1.
  pose proof (save_rates_supplied_fit _ _ _ _ _ _ _ _ H1) as Hsup.
  destruct (save_rates_Ok_inv _ _ _ _ _ _ _ _ H1) as (ei & ee & Hex & _).
  destruct (save_rates_writable self date I E b now1 st st1 ok1 H1) as [Hok Hst].
  destruct ok1.
  - destruct (load_after_save self date I E b now1 st ei ee true st1 Hex H1)
      as [(_ & Ti & Te & Hl1 & Hli & Hle)|[? _]]; [|discriminate].
    pose proof (existing_of_load _ _ _ _ _ Hl1) as Hex1.
    destruct (proj2 (save_rates_returns self date I E b now2 st1 Ti Te Hex1) Hsup)
      as [[ok2 st2] Hs].
    exists ok2, st2. split; [done|].
    destruct (load_after_save self date I E b now2 st1 Ti Te ok2 st2 Hex1 Hs)
      as [(_ & Ti2 & Te2 & Hl2 & Hli2 & Hle2)|(_ & ->)]; [|done].
    rewrite Hl2, Hl1. do 3 f_equal; apply map_eq; intros m;
      [rewrite Hli2|rewrite Hle2]; apply (frozen_pick_again b ei I Ti Hli)
      || apply (frozen_pick_again b ee E Te Hle).
  - rewrite (Hst eq_refl).
    destruct (proj2 (save_rates_returns self date I E b now2 st ei ee Hex) Hsup)
      as [[ok2 st2] Hs].
    exists ok2, st2. split; [done|].
    destruct (save_rates_writable self date I E b now2 st st2 ok2 Hs) as [Hok2 Hst2].
    rewrite Hst2; [done|congruence].
Qed.

Lemma repeated_save_idempotent_witness :
  save_rates store today imp1 exp1 60 "2026-10-18T13:05:00" fs0 = Ok (true, fs1) /\
  exists ok2 st2, save_rates store today imp1 exp1 60 "2026-10-18T13:06:00" fs1 = Ok (ok2, st2) /\
                  load_rates store today st2 = load_rates store today fs1.
Proof.
  split; [reflexivity|].
  apply (repeated_save_idempotent store today imp1 exp1 60 "2026-10-18T13:05:00"
           "2026-10-18T13:06:00" fs0 fs1 true); reflexivity.
Defined.

(** C9.  After [save_rates], every minute of the stored import table is a
    minute of the import table it started from or of the supplied import
    table, and symmetrically for export: the union over all four tables
    that drives the loop never carries a minute from one table to the other. *)
Theorem no_cross_table_leakage {V : Type} self date (ri re : gmap Z V) b now
    (st st' : fs V) ok ei ee I' E' :
  existing_tables self date st = Ok (ei, ee) ->
  save_rates self date ri re b now st = Ok (ok, st') ->
  load_rates self date st' = Ok (Some (I', E')) ->
  (forall m, m ∈ dom I' -> m ∈ dom ei \/ m ∈ dom ri) /\
  (forall m, m ∈ dom E' -> m ∈ dom ee \/ m ∈ dom re).
Proof.
  intros Hex Hs Hl.
  destruct (load_after_save self date ri re b now st ei ee ok st' Hex Hs)
    as [(_ & Ti & Te & Hl' & Hli & Hle)|(_ & ->)].
  - rewrite Hl in Hl'. injection Hl' as -> ->.
    split; intros m Hm; rewrite elem_of_dom in Hm; rewrite !elem_of_dom;
      [rewrite Hli in Hm|rewrite Hle in Hm]; unfold frozen_pick in Hm;
      destruct (Z.ltb m b); [destruct (_ !! m) eqn:Hx in Hm; eauto| eauto
                            |destruct (_ !! m) eqn:Hx in Hm; eauto| eauto].
  - rewrite (existing_of_load _ _ _ _ _ Hl) in Hex. injection Hex as -> ->.
    split; intros m Hm; left; done.
Qed.

Lemma no_cross_table_leakage_witness :
  existing_tables store today fs1 = Ok (imp1, exp1) /\
  save_rates store today imp2 exp_only 60 "2026-10-18T13:35:00" fs1 = Ok (true, fs_leak) /\
  load_rates store today fs_leak
    = Ok (Some (tbl [(0, 10#1); (30, 15#1); (60, 30#1); (90, 35#1)],
                tbl [(0, 5#1); (30, 15#2); (120, 3#1)])) /\
  (forall m, m ∈ dom (tbl [(0, 10#1); (30, 15#1); (60, 30#1); (90, 35#1)]) ->
             m ∈ dom imp1 \/ m ∈ dom imp2) /\
  (forall m, m ∈ dom (tbl [(0, 5#1); (30, 15#2); (120, 3#1)]) ->
             m ∈ dom exp1 \/ m ∈ dom exp_only).
Proof.
  split; [reflexivity|]. split; [reflexivity|]. split; [reflexivity|].
  apply (no_cross_table_leakage store today imp2 exp_only 60 "2026-10-18T13:35:00"
           fs1 fs_leak true imp1 exp1); reflexivity.
Defined.

(** C10.  The outcome of [save_rates] does not depend on the metadata of
    the stored document: two stores whose documents for the date agree on
    [rates_import] and [rates_export] (and that accept writes alike) give
    the same flag and the same tables afterwards, or raise the same
    exception, whatever [frozen_before_minute] and [last_updated] they hold. *)
Theorem merge_ignores_metadata {V : Type} self date (ri re : gmap Z V) b now
    (st1 st2 : fs V) d1 d2 :
  store_load (get_filepath self date) st1 = Some d1 ->
  store_load (get_filepath self date) st2 = Some d2 ->
  rates_import d1 = rates_import d2 -> rates_export d1 = rates_export d2 ->
  writable st1 = writable st2 ->
  match save_rates self date ri re b now st1, save_rates self date ri re b now st2 with
  | Ok (ok1, s1), Ok (ok2, s2) => ok1 = ok2 /\ load_rates self date s1 = load_rates self date s2
  | Raise e1, Raise e2 => e1 = e2
  | _, _ => False
  end.
Proof.
  intros H1 H2 Hi He Hw. unfold save_rates.
  rewrite H1, H2, Hi, He.
  destruct (dict_comp (rates_import d2)) as [ei|e]; simpl; [|done].
  destruct (dict_comp (rates_export d2)) as [ee|e]; simpl; [|done].
  destruct (fold_left _ _ _) as [[ni ne]|e]; simpl; [|done].
  destruct (store_save _ _ true st1) as [ok1 s1] eqn:E1.
  destruct (store_save _ _ true st2) as [ok2 s2] eqn:E2.
  destruct (store_save_lookup _ _ _ _ _ _ E1) as [(-> & Hw1 & Hf1 & _)|(-> & Hw1 & ->)];
  destruct (store_save_lookup _ _ _ _ _ _ E2) as [(-> & Hw2 & Hf2 & _)|(-> & Hw2 & ->)];
    try congruence.
  - split; [done|]. unfold load_rates, store_load. by rewrite Hf1, Hf2.
  - split; [done|]. by apply (load_rates_sections self date st1 st2 d1 d2).
Qed.

Lemma merge_ignores_metadata_witness :
  store_load (get_filepath store today) fs1 = Some doc1 /\
  store_load (get_filepath store today) fs1_meta = Some meta_doc /\
  frozen_before_minute doc1 = Some 60 /\ frozen_before_minute meta_doc = Some 0 /\
  match save_rates store today imp2 exp2 30 "t" fs1,
        save_rates store today imp2 exp2 30 "t" fs1_meta with
  | Ok (ok1, s1), Ok (ok2, s2) => ok1 = ok2 /\ load_rates store today s1 = load_rates store today s2
  | Raise e1, Raise e2 => e1 = e2
  | _, _ => False
  end.
Proof.
  split; [reflexivity|]. split; [reflexivity|]. split; [reflexivity|]. split; [reflexivity|].
  apply (merge_ignores_metadata store today imp2 exp2 30 "t" fs1 fs1_meta doc1 meta_doc);
    reflexivity.
Defined.
(** C8.  [_get_filepath] depends on the calendar date only: two datetimes
    with the same year, month and day give the same path, whatever their
    time of day.  The path is [os.path.join(save_dir, "rates_Y_M_D.json")]
    where, for a valid date, [Y] is the year on four digits and [M], [D]
    the month and day on two digits, each reading back as the date field. *)
Theorem filepath_by_calendar_date self (date : datetime) :
  1 <= year date <= 9999 -> 1 <= month date <= 12 -> 1 <= day date <= 31 ->
  (forall date', year date' = year date -> month date' = month date -> day date' = day date ->
                 get_filepath self date' = get_filepath self date) /\
  exists Y M D,
    get_filepath self date =
      os_path_join (save_dir self) ("rates_" ++ (Y ++ "_" ++ M ++ "_" ++ D) ++ ".json")%string /\
    String.length Y = 4%nat /\ String.length M = 2%nat /\ String.length D = 2%nat /\
    all_digits Y = true /\ all_digits M = true /\ all_digits D = true /\
    int_of_str Y = Ok (year date) /\ int_of_str M = Ok (month date) /\
    int_of_str D = Ok (day date).
Proof.
  intros Hy Hm Hd. split.
  - intros date' Ey Em Ed. unfold get_filepath, strftime_Y_m_d. by rewrite Ey, Em, Ed.
  - destruct (pad_check_spec 4 (year date) (year_field_ok _ Hy)) as (Ly & Dy & Iy).
    destruct (pad_check_spec 2 (month date) (month_day_field_ok (month date) ltac:(lia))) as (Lm & Dm & Im).
    destruct (pad_check_spec 2 (day date) (month_day_field_ok _ Hd)) as (Ld & Dd & Id).
    eexists _, _, _. split; [reflexivity|]. eauto 20.
Qed.

Lemma filepath_by_calendar_date_witness :
  1 <= year today <= 9999 /\ 1 <= month today <= 12 /\ 1 <= day today <= 31 /\
  (forall date', year date' = year today -> month date' = month today -> day date' = day today ->
                 get_filepath store date' = get_filepath store today) /\
  exists Y M D,
    get_filepath store today =
      os_path_join (save_dir store) ("rates_" ++ (Y ++ "_" ++ M ++ "_" ++ D) ++ ".json")%string /\
    String.length Y = 4%nat /\ String.length M = 2%nat /\ String.length D = 2%nat /\
    all_digits Y = true /\ all_digits M = true /\ all_digits D = true /\
    int_of_str Y = Ok (year today) /\ int_of_str M = Ok (month today) /\
    int_of_str D = Ok (day today).
Proof.
  split; [simpl; lia|]. split; [simpl; lia|]. split; [simpl; lia|].
  apply (filepath_by_calendar_date store today); simpl; lia.
Defined.

(* ------------------------------------------------------------------ *)
(** ** Further properties of the code *)

Section LayoutFacts.

Context {V : Type}.
Implicit Types (ei ri ee re T : gmap Z V) (st : fs V) (d : list (string * V)).

Lemma save_rates_form self date ri re b now st ei ee :
  existing_tables self date st = Ok (ei, ee) ->
  writes_fit b ei ri ee re ->
  save_rates self date ri re b now st =
    Ok (store_save (get_filepath self date)
          (mkDoc (Some (SObj (fold_left (fun d m => set_opt d (str_of_Z m) (frozen_pick b ei ri m))
                                (merge_sort Z.le (elements (dom ei ∪ dom ri ∪ dom ee ∪ dom re))) [])))
                 (Some (SObj (fold_left (fun d m => set_opt d (str_of_Z m) (frozen_pick b ee re m))
                                (merge_sort Z.le (elements (dom ei ∪ dom ri ∪ dom ee ∪ dom re))) [])))
                 (Some now) (Some b)) true st).
Proof.
  intros Hex Hfit. rewrite (save_rates_existing_eq _ _ _ _ _ _ _ _ _ Hex). cbv zeta.
  apply writes_fit_forallb in Hfit. by rewrite Hfit.
Qed.

(** A [save_rates] that returns a value started from readable sections,
    and every minute it wrote had a key [str] could produce. *)
Lemma save_rates_existing self date ri re b now st r :
  save_rates self date ri re b now st = Ok r ->
  exists ei ee, existing_tables self date st = Ok (ei, ee) /\ writes_fit b ei ri ee re.
Proof. apply save_rates_Ok_inv. Qed.

Lemma fold_set_opt_omap (p : Z -> option V) ms : forall d,
  NoDup ms -> (forall z, z ∈ ms -> str_of_Z z ∉ map fst d) ->
  fold_left (fun d m => set_opt d (str_of_Z m) (p m)) ms d
  = d ++ omap (fun m => pair (str_of_Z m) <$> p m) ms.
Proof.
  induction ms as [|m ms IH]; intros d Hnd Hk.
  - simpl. by rewrite app_nil_r.
  - apply NoDup_cons in Hnd as [Hm Hnd]. cbn [fold_left omap list_omap].
    destruct (p m) as [v|] eqn:Hp; simpl.
    + rewrite dict_set_fresh by (apply Hk; left).
      rewrite IH; [by rewrite <- app_assoc| done |].
      intros z Hz. rewrite map_app. simpl. rewrite elem_of_app, list_elem_of_singleton.
      intros [Hin|He]; [by apply (Hk z); [right|]|].
      apply str_of_Z_inj in He. subst. done.
    + apply IH; [done|]. intros z Hz. apply Hk. by right.
Qed.

Lemma omap_keys_sorted (p : Z -> option V) ms :
  StronglySorted Z.lt ms ->
  exists ms', map fst (omap (fun m => pair (str_of_Z m) <$> p m) ms) = map str_of_Z ms' /\
              StronglySorted Z.lt ms' /\ (forall z, z ∈ ms' -> z ∈ ms).
Proof.
  induction 1 as [|m ms Hs IH Hf].
  - exists []. split; [done|]. split; [constructor|]. intros z Hz. inversion Hz.
  - destruct IH as (ms' & Hk & Hs' & Hsub). cbn [omap list_omap].
    destruct (p m) as [v|]; simpl.
    + exists (m :: ms'). simpl. rewrite Hk. split; [done|]. split.
      * constructor; [done|]. apply Forall_forall. intros z Hz.
        apply Hsub in Hz. rewrite Forall_forall in Hf. by apply Hf.
      * intros z Hz. rewrite elem_of_cons in Hz |- *. destruct Hz as [->|Hz]; [by left|right; auto].
    + exists ms'. split; [done|]. split; [done|]. intros z Hz. right. auto.
Qed.

Lemma sorted_lt_of_le (l : list Z) : StronglySorted Z.le l -> NoDup l -> StronglySorted Z.lt l.
Proof.
  induction 1 as [|a l Hs IH Hf]; intros Hnd; constructor.
  - apply NoDup_cons in Hnd as [_ Hnd]. auto.
  - apply NoDup_cons in Hnd as [Ha _]. rewrite Forall_forall in Hf |- *.
    intros x Hx. assert (a <> x) by (intros ->; auto). specialize (Hf x Hx). lia.
Qed.

Lemma sorted_minutes (S : gset Z) : StronglySorted Z.lt (merge_sort Z.le (elements S)).
Proof.
  apply sorted_lt_of_le.
  - apply StronglySorted_merge_sort; [intros ???; lia|intros ??; lia].
  - rewrite merge_sort_Permutation. apply NoDup_elements.
Qed.

Lemma section_layout (p : Z -> option V) (S : gset Z) :
  exists ms, map fst (fold_left (fun d m => set_opt d (str_of_Z m) (p m))
                                (merge_sort Z.le (elements S)) [])
             = map str_of_Z ms /\ StronglySorted Z.lt ms.
Proof.
  rewrite fold_set_opt_omap.
  - cbn [app]. destruct (omap_keys_sorted p _ (sorted_minutes S)) as (ms & Hk & Hs & _).
    exists ms. by rewrite Hk.
  - rewrite merge_sort_Permutation. apply NoDup_elements.
  - intros z _ Hz. inversion Hz.
Qed.

End LayoutFacts.

Section PathFacts.

Lemma list_ascii_app (a b : string) :
  list_ascii_of_string (a ++ b) = list_ascii_of_string a ++ list_ascii_of_string b.
Proof. induction a as [|c a IH]; simpl; [done|]. by rewrite IH. Qed.

Lemma list_ascii_length (a : string) : length (list_ascii_of_string a) = String.length a.
Proof. induction a as [|c a IH]; simpl; auto. Qed.

Lemma list_ascii_inj (a b : string) : list_ascii_of_string a = list_ascii_of_string b -> a = b.
Proof.
  intros H. rewrite <- (string_of_list_ascii_of_string a), <- (string_of_list_ascii_of_string b).
  by rewrite H.
Qed.

Lemma string_app_cancel_l (a b c : string) : (a ++ b = a ++ c)%string -> b = c.
Proof. induction a as [|x a IH]; simpl; [done|]. intros H. injection H. apply IH. Qed.

(** Joining a directory with a relative file name is injective in the name. *)
Lemma join_name_inj (dir : string) (c : ascii) (f1 f2 : string) :
  Ascii.eqb c "/"%char = false ->
  os_path_join dir (String c f1) = os_path_join dir (String c f2) -> f1 = f2.
Proof.
  unfold os_path_join. intros Hc. rewrite Hc.
  destruct (String.eqb dir "" || ends_with_sep dir); intros H;
    apply string_app_cancel_l in H; [injection H as H; done|].
  simpl in H. injection H as H. done.
Qed.

Lemma strftime_chars (date : datetime) :
  list_ascii_of_string (strftime_Y_m_d date ++ ".json") =
  list_ascii_of_string (zero_pad 4 (str_of_Z (year date))) ++
  "_"%char :: list_ascii_of_string (zero_pad 2 (str_of_Z (month date))) ++
  "_"%char :: list_ascii_of_string (zero_pad 2 (str_of_Z (day date))) ++
  list_ascii_of_string ".json".
Proof.
  unfold strftime_Y_m_d. rewrite !list_ascii_app. simpl.
  rewrite <- app_assoc. simpl. rewrite <- app_assoc. reflexivity.
Qed.


Lemma field_inj w (v1 v2 : Z) (l1 l2 : list ascii) :
  pad_check w v1 = true -> pad_check w v2 = true ->
  list_ascii_of_string (zero_pad w (str_of_Z v1)) ++ l1 =
  list_ascii_of_string (zero_pad w (str_of_Z v2)) ++ l2 -> v1 = v2 /\ l1 = l2.
Proof.
  intros H1 H2 H.
  destruct (pad_check_spec w v1 H1) as (L1 & _ & I1).
  destruct (pad_check_spec w v2 H2) as (L2 & _ & I2).
  apply app_inj_1 in H as [Hs ->]; [|by rewrite !list_ascii_length, L1, L2].
  apply list_ascii_inj in Hs. rewrite Hs, I2 in I1. by injection I1.
Qed.

Lemma filepath_inj self (d1 d2 : datetime) :
  valid_date d1 -> valid_date d2 ->
  get_filepath self d1 = get_filepath self d2 ->
  year d1 = year d2 /\ month d1 = month d2 /\ day d1 = day d2.
Proof.
  intros (Y1 & M1 & D1) (Y2 & M2 & D2) H. unfold get_filepath in H.
  apply join_name_inj in H; [|reflexivity].
  simpl in H. injection H as H.
  apply (f_equal list_ascii_of_string) in H. rewrite !strftime_chars in H.
  apply field_inj in H as [Ey H]; [|by apply year_field_ok..].
  injection H as H.
  apply field_inj in H as [Em H]; [|apply month_day_field_ok; lia..].
  injection H as H.
  apply field_inj in H as [Ed _]; [|by apply month_day_field_ok..].
  done.
Qed.


Lemma no_slash_app l1 l2 : no_slash l1 -> no_slash l2 -> no_slash (l1 ++ l2).
Proof. apply Forall_app_2. Qed.

Lemma chars_of_uint_no_slash u : no_slash (chars_of_uint u).
Proof. induction u; simpl; constructor; auto. Qed.

Lemma str_of_Z_no_slash z : no_slash (list_ascii_of_string (str_of_Z z)).
Proof.
  unfold str_of_Z. destruct (Z.to_int z); rewrite list_ascii_of_string_of_list_ascii.
  - apply chars_of_uint_no_slash.
  - constructor; [done|apply chars_of_uint_no_slash].
Qed.

Lemma zero_pad_no_slash w s :
  no_slash (list_ascii_of_string s) -> no_slash (list_ascii_of_string (zero_pad w s)).
Proof.
  intros H. unfold zero_pad. rewrite list_ascii_app, list_ascii_of_string_of_list_ascii.
  apply no_slash_app; [|done]. apply Forall_forall. intros c Hc.
  apply list_elem_of_In, repeat_spec in Hc. by subst.
Qed.

Lemma filename_no_slash (date : datetime) :
  no_slash (list_ascii_of_string ("rates_" ++ strftime_Y_m_d date ++ ".json")).
Proof.
  rewrite list_ascii_app, strftime_chars.
  repeat (apply no_slash_app || constructor; try reflexivity);
    apply zero_pad_no_slash, str_of_Z_no_slash.
Qed.

Lemma takewhile_app f l1 l2 :
  Forall (fun c => f c = true) l1 -> takewhile f (l1 ++ l2) = l1 ++ takewhile f l2.
Proof. induction 1 as [|c l Hc _ IH]; simpl; [done|]. by rewrite Hc, IH. Qed.

Lemma basename_join (dir f : string) (c : ascii) :
  Ascii.eqb c "/"%char = false -> no_slash (list_ascii_of_string (String c f)) ->
  basename (os_path_join dir (String c f)) = String c f.
Proof.
  intros Hc Hf. unfold os_path_join. rewrite Hc.
  assert (Hw : Forall (fun x => negb (Ascii.eqb x "/"%char) = true)
                 (rev (list_ascii_of_string (String c f)))).
  { apply Forall_rev. eapply Forall_impl; [exact Hf|]. intros x ->. done. }
  unfold basename.
  remember (String c f) as F eqn:HF. clear HF Hf.
  destruct (String.eqb dir "" || ends_with_sep dir) eqn:Hd.
  - rewrite list_ascii_app, rev_app_distr, takewhile_app by done.
    apply orb_prop in Hd as [He|He].
    + apply String.eqb_eq in He. subst. cbn [list_ascii_of_string rev takewhile].
      rewrite app_nil_r, rev_involutive; apply string_of_list_ascii_of_string.
    + unfold ends_with_sep in He. destruct (rev (list_ascii_of_string dir)) as [|x r]; [done|].
      cbn [takewhile]. rewrite He. cbn [negb]. rewrite app_nil_r, rev_involutive; apply string_of_list_ascii_of_string.
  - rewrite !list_ascii_app, !rev_app_distr, <- app_assoc, takewhile_app by done.
    cbn [list_ascii_of_string rev app takewhile].
    replace (negb (Ascii.eqb "/" "/")) with false by reflexivity.
    rewrite app_nil_r, rev_involutive; apply string_of_list_ascii_of_string.
Qed.

Lemma star_suffix (pat' l s : list ascii) :
  fnmatch pat' s = true ->
  (fix star (s : list ascii) : bool :=
     fnmatch pat' s || match s with [] => false | _ :: s' => star s' end) (l ++ s) = true.
Proof.
  intros H. induction l as [|c l IH].
  - destruct s; simpl; by rewrite H.
  - simpl. rewrite IH. apply orb_true_r.
Qed.

End PathFacts.

Section FnmatchFacts.

Lemma fnmatch_lit c p s :
  Ascii.eqb c "*"%char = false -> fnmatch (c :: p) (c :: s) = fnmatch p s.
Proof. intros H. simpl. rewrite H, Ascii.eqb_refl. reflexivity. Qed.

Lemma fnmatch_star_suffix p l s : fnmatch p s = true -> fnmatch ("*"%char :: p) (l ++ s) = true.
Proof. intros H. exact (star_suffix p l s H). Qed.

End FnmatchFacts.

Section FrameFacts.
Context {V : Type}.

(** Every path [_get_filepath] gives ends in [".json"]. *)
Lemma filepath_last self date :
  last (list_ascii_of_string (get_filepath self date)) = Some "n"%char.
Proof.
  unfold get_filepath, os_path_join.
  change ("rates_" ++ strftime_Y_m_d date ++ ".json")%string
    with (String "r" ("ates_" ++ strftime_Y_m_d date ++ ".json"))%string.
  cbv beta iota.
  replace (Ascii.eqb "r"%char "/"%char) with false by reflexivity.
  cbv beta iota.
  change (String "r" ("ates_" ++ strftime_Y_m_d date ++ ".json"))%string
    with ("rates_" ++ strftime_Y_m_d date ++ ".json")%string.
  destruct (_ || _); rewrite !list_ascii_app, !app_assoc;
    change (list_ascii_of_string ".json") with ["."; "j"; "s"; "o"; "n"]%char;
    by rewrite last_app_cons.
Qed.

Lemma bak_last (s : string) : last (list_ascii_of_string (s ++ ".bak")) = Some "k"%char.
Proof.
  rewrite list_ascii_app. change (list_ascii_of_string ".bak") with ["."; "b"; "a"; "k"]%char.
  by rewrite last_app_cons.
Qed.

(** No rate file is the backup of a file. *)
Lemma filepath_not_bak self date (s : string) : get_filepath self date <> (s ++ ".bak")%string.
Proof.
  intros H. pose proof (filepath_last self date) as Hl. rewrite H, bak_last in Hl.
  inversion Hl.
Qed.

Lemma save_frame self date (ri re : gmap Z V) b now (st : fs V) ok st' :
  save_rates self date ri re b now st = Ok (ok, st') ->
  writable st' = writable st /\
  (forall p, p <> get_filepath self date -> p <> (get_filepath self date ++ ".bak")%string ->
    store_load p st' = store_load p st /\ ages st' !! p = ages st !! p) /\
  (ok = true -> forall old, store_load (get_filepath self date) st = Some old ->
    store_load (get_filepath self date ++ ".bak") st' = Some old).
Proof.
  intros Hs. destruct (save_rates_existing _ _ _ _ _ _ _ _ Hs) as (ei & ee & Hex & Hfit).
  rewrite (save_rates_form _ _ _ _ _ _ _ _ _ Hex Hfit) in Hs. injection Hs as Hs.
  pose proof (filepath_not_bak self date (get_filepath self date)) as Hnb.
  unfold store_save in Hs. destruct (writable st) eqn:Hw;
    [|injection Hs as <- <-; split; [done|split; [done|discriminate]]].
  unfold store_load.
  destruct (files st !! get_filepath self date) as [old|] eqn:Ho;
    injection Hs as <- <-; simpl; (split; [done|split]).
  - intros p Hp Hb. by rewrite !lookup_insert_ne by congruence.
  - intros _ old' Hold. injection Hold as <-.
    rewrite lookup_insert_ne by congruence. by rewrite lookup_insert_eq.
  - intros p Hp Hb. by rewrite !lookup_insert_ne by congruence.
  - intros _ old' Hold. congruence.
Qed.

(** The tables a successful save leaves, from the stored ones. *)
Lemma save_tables self date (ri re : gmap Z V) b now (st : fs V) I E st' :
  load_rates self date st = Ok (Some (I, E)) ->
  save_rates self date ri re b now st = Ok (true, st') ->
  exists I' E', load_rates self date st' = Ok (Some (I', E')) /\
    (forall m, I' !! m = frozen_pick b I ri m) /\ (forall m, E' !! m = frozen_pick b E re m).
Proof.
  intros Hl Hs.
  destruct (load_after_save _ _ _ _ _ _ _ _ _ _ _ (existing_of_load _ _ _ _ _ Hl) Hs)
    as [(_ & Ti & Te & H)|(? & _)]; [eauto|discriminate].
Qed.

End FrameFacts.

(** X1.  A minute key [str(minute)] that [save_rates] writes is read
    back by [int()] in [load_rates] and in the next [save_rates] as the
    same minute, negative minutes included; two different minutes never
    share a key; and [str(minute)] raises only for a minute of more than
    [int_max_str_digits] digits. *)
Theorem minute_key_roundtrip (m : Z) :
  (forall k, py_str m = Ok k -> int_of_str k = Ok m) /\
  (forall m', str_of_Z m' = str_of_Z m -> m' = m) /\
  (py_str m = Raise ValueError <-> key_fits m = false).
Proof.
  rewrite py_str_eq. split; [|split].
  - intros k. destruct (key_fits m) eqn:Hk; [|discriminate].
    intros [= <-]. by apply int_of_str_of_Z.
  - intros m'. apply str_of_Z_inj.
  - destruct (key_fits m); split; congruence.
Qed.

(** X2.  After a [save_rates] that returns True, the file of the date
    holds both rate sections as JSON objects, [last_updated] is the save's
    timestamp and [frozen_before_minute] its boundary; the keys of each
    section are the decimal forms [str(m)] of its minutes, in strictly
    increasing numeric order (so no key occurs twice). *)
Theorem saved_document_layout {V : Type} self date (ri re : gmap Z V) b now (st st' : fs V) :
  save_rates self date ri re b now st = Ok (true, st') ->
  exists ni ne mi me,
    store_load (get_filepath self date) st' =
      Some (mkDoc (Some (SObj ni)) (Some (SObj ne)) (Some now) (Some b)) /\
    map fst ni = map str_of_Z mi /\ StronglySorted Z.lt mi /\
    map fst ne = map str_of_Z me /\ StronglySorted Z.lt me.
Proof.
  intros Hs. destruct (save_rates_existing _ _ _ _ _ _ _ _ Hs) as (ei & ee & Hex & Hfit).
  rewrite (save_rates_form _ _ _ _ _ _ _ _ _ Hex Hfit) in Hs. injection Hs as Hs.
  destruct (store_save_lookup _ _ _ _ _ _ Hs) as [(_ & _ & Hf & _)|(? & _)]; [|discriminate].
  set (S := dom ei ∪ dom ri ∪ dom ee ∪ dom re).
  destruct (section_layout (frozen_pick b ei ri) S) as (mi & Hki & Hsi).
  destruct (section_layout (frozen_pick b ee re) S) as (me & Hke & Hse).
  eexists _, _, mi, me. split; [|eauto].
  exact Hf.
Qed.

(** X3.  [save_rates] writes at most the file of its date and, as it
    passes [backup=True], the backup [file ++ ".bak"] of that file: every
    other path of the store keeps its document and its age, and the store
    stays writable or read-only as it was.  When the save returns True
    over an existing file, the backup holds the previous document. *)
Theorem save_writes_only_its_file {V : Type} self date (ri re : gmap Z V) b now
    (st st' : fs V) ok :
  save_rates self date ri re b now st = Ok (ok, st') ->
  writable st' = writable st /\
  (forall p, p <> get_filepath self date -> p <> (get_filepath self date ++ ".bak")%string ->
    store_load p st' = store_load p st /\ ages st' !! p = ages st !! p) /\
  (ok = true -> forall old, store_load (get_filepath self date) st = Some old ->
    store_load (get_filepath self date ++ ".bak") st' = Some old).
Proof. apply save_frame. Qed.

(** X4.  [_get_filepath] gives different calendar dates (years 1 to
    9999, months 1 to 12, days 1 to 31) different paths: two dates with
    the same path have the same year, month and day. *)
Theorem filepath_injective self (d1 d2 : datetime) :
  1 <= year d1 <= 9999 -> 1 <= month d1 <= 12 -> 1 <= day d1 <= 31 ->
  1 <= year d2 <= 9999 -> 1 <= month d2 <= 12 -> 1 <= day d2 <= 31 ->
  get_filepath self d1 = get_filepath self d2 ->
  year d1 = year d2 /\ month d1 = month d2 /\ day d1 = day d2.
Proof. intros ??????. apply filepath_inj; split; auto. Qed.

(** X5.  A [save_rates] for one calendar date that returns (True or False) leaves
    what [load_rates] returns for every other calendar date unchanged. *)
Theorem save_leaves_other_dates {V : Type} self (d1 d2 : datetime) (ri re : gmap Z V) b now
    (st st' : fs V) ok :
  valid_date d1 -> valid_date d2 ->
  (year d1, month d1, day d1) <> (year d2, month d2, day d2) ->
  save_rates self d1 ri re b now st = Ok (ok, st') ->
  load_rates self d2 st' = load_rates self d2 st.
Proof.
  intros H1 H2 Hne Hs. destruct (save_frame _ _ _ _ _ _ _ _ _ Hs) as [_ [Hf _]].
  assert (Hp : get_filepath self d2 <> get_filepath self d1).
  { intros Hp. apply filepath_inj in Hp as (Ey & Em & Ed); [|done|done].
    apply Hne. by rewrite Ey, Em, Ed. }
  unfold load_rates. by rewrite (proj1 (Hf _ Hp (filepath_not_bak _ _ _))).
Qed.

(** X6.  Saving back the tables [load_rates] returned, with any boundary,
    leaves the stored tables as they were. *)
Theorem resave_loaded_tables {V : Type} self date (I E : gmap Z V) b now (st st' : fs V) :
  load_rates self date st = Ok (Some (I, E)) ->
  save_rates self date I E b now st = Ok (true, st') ->
  load_rates self date st' = Ok (Some (I, E)).
Proof.
  intros Hl Hs. destruct (save_tables _ _ _ _ _ _ _ _ _ _ Hl Hs) as (I' & E' & Hl' & Hi & He).
  rewrite Hl'. do 3 f_equal; apply map_eq; intros m; [rewrite Hi|rewrite He];
    unfold frozen_pick; destruct (Z.ltb m b); [by destruct (_ !! m)|done|by destruct (_ !! m)|done].
Qed.

(** X7.  A successful [save_rates] with two empty tables deletes every
    stored minute at or after the boundary and keeps those before it. *)
Theorem empty_save_truncates {V : Type} self date (I E : gmap Z V) b now (st st' : fs V) :
  load_rates self date st = Ok (Some (I, E)) ->
  save_rates self date ∅ ∅ b now st = Ok (true, st') ->
  exists I' E', load_rates self date st' = Ok (Some (I', E')) /\
    forall m, I' !! m = (if Z.ltb m b then I !! m else None) /\
              E' !! m = (if Z.ltb m b then E !! m else None).
Proof.
  intros Hl Hs. destruct (save_tables _ _ _ _ _ _ _ _ _ _ Hl Hs) as (I' & E' & Hl' & Hi & He).
  exists I', E'. split; [done|]. intros m. rewrite Hi, He. unfold frozen_pick.
  rewrite !lookup_empty. destruct (Z.ltb m b); [|done].
  split; [by destruct (I !! m)|by destruct (E !! m)].
Qed.

(** X8.  When no stored minute lies before the boundary, a successful
    [save_rates] stores exactly the supplied tables. *)
Theorem save_replaces_when_nothing_frozen {V : Type} self date (I E ri re : gmap Z V) b now
    (st st' : fs V) :
  load_rates self date st = Ok (Some (I, E)) ->
  (forall m, m ∈ dom I ∪ dom E -> b <= m) ->
  save_rates self date ri re b now st = Ok (true, st') ->
  load_rates self date st' = Ok (Some (ri, re)).
Proof.
  intros Hl Hb Hs. destruct (save_tables _ _ _ _ _ _ _ _ _ _ Hl Hs) as (I' & E' & Hl' & Hi & He).
  rewrite Hl'. do 3 f_equal; apply map_eq; intros m; [rewrite Hi|rewrite He];
    unfold frozen_pick; destruct (Z.ltb_spec m b) as [Hm|]; try done.
  - destruct (I !! m) eqn:HI; [|done]. specialize (Hb m). rewrite elem_of_union, !elem_of_dom, HI in Hb.
    assert (b <= m) by (apply Hb; left; done). lia.
  - destruct (E !! m) eqn:HE; [|done]. specialize (Hb m). rewrite elem_of_union, !elem_of_dom, HE in Hb.
    assert (b <= m) by (apply Hb; right; done). lia.
Qed.

(** X9.  When every stored minute lies before the boundary, a successful
    [save_rates] stores the union of the stored and the supplied tables,
    the stored value winning on a minute present in both. *)
Theorem save_merges_when_all_frozen {V : Type} self date (I E ri re : gmap Z V) b now
    (st st' : fs V) :
  load_rates self date st = Ok (Some (I, E)) ->
  (forall m, m ∈ dom I ∪ dom E -> m < b) ->
  save_rates self date ri re b now st = Ok (true, st') ->
  load_rates self date st' = Ok (Some (I ∪ ri, E ∪ re)).
Proof.
  intros Hl Hb Hs. destruct (save_tables _ _ _ _ _ _ _ _ _ _ Hl Hs) as (I' & E' & Hl' & Hi & He).
  rewrite Hl'. do 3 f_equal; apply map_eq; intros m; [rewrite Hi|rewrite He]; unfold frozen_pick.
  - destruct (I !! m) as [v|] eqn:HI.
    + assert (m < b) by (apply Hb; apply elem_of_union_l, elem_of_dom; eauto).
      destruct (Z.ltb_spec m b); [|lia]. by erewrite lookup_union_Some_l.
    + rewrite lookup_union_r by done. by destruct (Z.ltb m b).
  - destruct (E !! m) as [v|] eqn:HE.
    + assert (m < b) by (apply Hb; apply elem_of_union_r, elem_of_dom; eauto).
      destruct (Z.ltb_spec m b); [|lia]. by erewrite lookup_union_Some_l.
    + rewrite lookup_union_r by done. by destruct (Z.ltb m b).
Qed.

Section KeyFacts.
Context {V : Type}.

Lemma int_keyed_last (items : list (string * V)) : forall T,
  int_keyed items = Ok T ->
  forall m v, T !! m = Some v <->
    exists l1 k l2, items = l1 ++ (k, v) :: l2 /\ int_of_str k = Ok m /\
                    Forall (fun kv => int_of_str kv.1 <> Ok m) l2.
Proof.
  induction items as [|[k' v'] items IH] using rev_ind; intros T HT m v.
  - unfold int_keyed in HT. simpl in HT. injection HT as <-. rewrite lookup_empty.
    split; [discriminate|]. intros (l1 & k & l2 & Hl & _). destruct l1; discriminate.
  - rewrite int_keyed_snoc in HT.
    destruct (int_keyed items) as [T0|e]; simpl in HT; [|discriminate].
    destruct (int_of_str k') as [z|e] eqn:Hz; simpl in HT; [|discriminate].
    injection HT as <-. specialize (IH T0 eq_refl).
    destruct (decide (m = z)) as [->|Hne].
    + rewrite lookup_insert_eq. split.
      * intros [= <-]. exists items, k', []. auto.
      * intros (l1 & k & l2 & Hl & Hk & Hf). destruct l2 as [|x l2].
        -- apply app_inj_tail in Hl as [_ Hl]. by injection Hl as -> ->.
        -- destruct (exists_last (l := x :: l2)) as (l2' & a & Ha); [done|].
           rewrite Ha, app_comm_cons, app_assoc in Hl. apply app_inj_tail in Hl as [_ <-].
           rewrite Ha, Forall_app, Forall_singleton in Hf. simpl in Hf. tauto.
    + rewrite lookup_insert_ne by congruence. rewrite IH. split.
      * intros (l1 & k & l2 & Hl & Hk & Hf). exists l1, k, (l2 ++ [(k', v')]).
        split; [subst; by rewrite <- app_assoc|]. split; [done|].
        apply Forall_app. split; [done|]. apply Forall_singleton. simpl. rewrite Hz. congruence.
      * intros (l1 & k & l2 & Hl & Hk & Hf). destruct l2 as [|x l2].
        -- apply app_inj_tail in Hl as [_ Hl]. injection Hl as -> ->. congruence.
        -- destruct (exists_last (l := x :: l2)) as (l2' & a & Ha); [done|].
           rewrite Ha, app_comm_cons, app_assoc in Hl. apply app_inj_tail in Hl as [Hl _].
           exists l1, k, l2'. rewrite Ha, Forall_app in Hf. tauto.
Qed.

End KeyFacts.

(** X10.  When several keys of a stored import section parse to the same
    minute (e.g. ["30"] and ["+30"]), [load_rates] keeps the value of the
    last of them: minute [m] maps to [v] exactly when some entry [(k, v)]
    with [int(k) = m] is followed by no other entry whose key parses to [m]. *)
Theorem load_rates_last_key_wins {V : Type} self date (st : fs V) d items (I E : gmap Z V) :
  store_load (get_filepath self date) st = Some d ->
  rates_import d = Some (SObj items) ->
  load_rates self date st = Ok (Some (I, E)) ->
  forall m v, I !! m = Some v <->
    exists l1 k l2, items = l1 ++ (k, v) :: l2 /\ int_of_str k = Ok m /\
                    Forall (fun kv => int_of_str kv.1 <> Ok m) l2.
Proof.
  intros Hd Hi Hl. apply int_keyed_last.
  unfold load_rates in Hl. rewrite Hd, Hi in Hl. simpl in Hl.
  destruct (int_keyed items) as [T|e]; simpl in Hl; [|discriminate].
  destruct (dict_comp (rates_export d)); simpl in Hl; [|discriminate].
  by injection Hl as -> _.
Qed.

(** X11.  The rate file of every date lies directly in [save_dir] and
    its name matches the pattern ["rates_*.json"] that [cleanup_old_files]
    passes to the store's cleanup. *)
Theorem rate_file_matches_cleanup self (date : datetime) :
  fnmatch (list_ascii_of_string "rates_*.json")
          (list_ascii_of_string (basename (get_filepath self date))) = true /\
  os_path_join (save_dir self) (basename (get_filepath self date)) = get_filepath self date.
Proof.
  pose proof (filename_no_slash date) as Hn. unfold get_filepath.
  change ("rates_" ++ ?x)%string with (String "r" ("ates_" ++ x))%string in Hn |- *.
  rewrite basename_join by done. split; [|done].
  cbn [list_ascii_of_string]. rewrite !list_ascii_app. cbn [list_ascii_of_string app].
  rewrite !fnmatch_lit by reflexivity. apply fnmatch_star_suffix. reflexivity.
Qed.

(** X12.  Saving the same tables a second time with a boundary at least
    as large as the first leaves the stored tables unchanged. *)
Theorem advancing_boundary_resave {V : Type} self date (I E : gmap Z V) b1 b2 now1 now2
    (st st1 st2 : fs V) :
  b1 <= b2 ->
  save_rates self date I E b1 now1 st = Ok (true, st1) ->
  save_rates self date I E b2 now2 st1 = Ok (true, st2) ->
  load_rates self date st2 = load_rates self date st1.
Proof.
  intros Hb Hs1 Hs2. destruct (save_rates_existing _ _ _ _ _ _ _ _ Hs1) as (ei & ee & Hex & _).
  destruct (load_after_save _ _ _ _ _ _ _ _ _ _ _ Hex Hs1)
    as [(_ & T1i & T1e & Hl1 & H1i & H1e)|(? & _)]; [|discriminate].
  destruct (save_tables _ _ _ _ _ _ _ _ _ _ Hl1 Hs2) as (T2i & T2e & Hl2 & H2i & H2e).
  rewrite Hl1, Hl2. do 3 f_equal; apply map_eq; intros m.
  - rewrite H2i. unfold frozen_pick at 1. rewrite !H1i. unfold frozen_pick.
    destruct (Z.ltb_spec m b2), (Z.ltb_spec m b1); try lia; by destruct (ei !! m), (I !! m).
  - rewrite H2e. unfold frozen_pick at 1. rewrite !H1e. unfold frozen_pick.
    destruct (Z.ltb_spec m b2), (Z.ltb_spec m b1); try lia; by destruct (ee !! m), (E !! m).
Qed.

(** X13.  After a successful [save_rates], the minutes of the stored
    import table are the stored minutes before the boundary together with
    the supplied minutes, and likewise for export. *)
Theorem saved_minutes_domain {V : Type} self date (I E ri re : gmap Z V) b now (st st' : fs V) :
  load_rates self date st = Ok (Some (I, E)) ->
  save_rates self date ri re b now st = Ok (true, st') ->
  exists I' E', load_rates self date st' = Ok (Some (I', E')) /\
    dom I' = filter (fun m => m < b) (dom I) ∪ dom ri /\
    dom E' = filter (fun m => m < b) (dom E) ∪ dom re.
Proof.
  intros Hl Hs. destruct (save_tables _ _ _ _ _ _ _ _ _ _ Hl Hs) as (I' & E' & Hl' & Hi & He).
  exists I', E'. split; [done|].
  split; apply set_eq; intros m; rewrite elem_of_union, elem_of_filter, !elem_of_dom;
    [rewrite Hi|rewrite He]; unfold frozen_pick;
    destruct (Z.ltb_spec m b); repeat case_match; unfold is_Some; naive_solver lia.
Qed.

Lemma minute_key_roundtrip_witness :
  (forall k, py_str (-30) = Ok k -> int_of_str k = Ok (-30)) /\
  (forall m', str_of_Z m' = str_of_Z (-30) -> m' = -30) /\
  (py_str (-30) = Raise ValueError <-> key_fits (-30) = false).
Proof. apply (minute_key_roundtrip (-30)). Defined.

Lemma saved_document_layout_witness :
  save_rates store today imp1 exp1 60 "2026-10-18T13:05:00" fs0 = Ok (true, fs1) /\
  exists ni ne mi me,
    store_load (get_filepath store today) fs1 =
      Some (mkDoc (Some (SObj ni)) (Some (SObj ne)) (Some "2026-10-18T13:05:00") (Some 60)) /\
    map fst ni = map str_of_Z mi /\ StronglySorted Z.lt mi /\
    map fst ne = map str_of_Z me /\ StronglySorted Z.lt me.
Proof.
  split; [reflexivity|].
  apply (saved_document_layout store today imp1 exp1 60 "2026-10-18T13:05:00" fs0 fs1).
  reflexivity.
Defined.

Lemma save_writes_only_its_file_witness :
  save_rates store today imp2 exp2 60 "2026-10-18T13:35:00" fs1 = Ok (true, fs2) /\
  writable fs2 = writable fs1 /\
  (forall p, p <> get_filepath store today -> p <> (get_filepath store today ++ ".bak")%string ->
    store_load p fs2 = store_load p fs1 /\ ages fs2 !! p = ages fs1 !! p) /\
  (true = true -> forall old, store_load (get_filepath store today) fs1 = Some old ->
    store_load (get_filepath store today ++ ".bak") fs2 = Some old).
Proof.
  split; [reflexivity|].
  apply (save_writes_only_its_file store today imp2 exp2 60 "2026-10-18T13:35:00" fs1 fs2 true).
  reflexivity.
Defined.

Lemma filepath_injective_witness :
  get_filepath store today_late = get_filepath store today /\
  year today_late = year today /\ month today_late = month today /\ day today_late = day today.
Proof.
  split; [reflexivity|].
  apply (filepath_injective store today_late today); simpl; try lia. reflexivity.
Defined.

Lemma save_leaves_other_dates_witness :
  valid_date today /\ valid_date tomorrow /\
  (year today, month today, day today) <> (year tomorrow, month tomorrow, day tomorrow) /\
  save_rates store today imp1 exp1 60 "2026-10-18T13:05:00" fs0 = Ok (true, fs1) /\
  load_rates store tomorrow fs1 = load_rates store tomorrow fs0.
Proof.
  assert (Ht : valid_date today) by (unfold valid_date; simpl; lia).
  assert (Hm : valid_date tomorrow) by (unfold valid_date; simpl; lia).
  assert (Hn : (year today, month today, day today) <> (year tomorrow, month tomorrow, day tomorrow))
    by (simpl; congruence).
  assert (Hs : save_rates store today imp1 exp1 60 "2026-10-18T13:05:00" fs0 = Ok (true, fs1))
    by reflexivity.
  split; [exact Ht|]. split; [exact Hm|]. split; [exact Hn|]. split; [exact Hs|].
  exact (save_leaves_other_dates store today tomorrow imp1 exp1 60 "2026-10-18T13:05:00"
           fs0 fs1 true Ht Hm Hn Hs).
Defined.

Lemma resave_loaded_tables_witness :
  load_rates store today fs1 = Ok (Some (imp1, exp1)) /\
  save_rates store today imp1 exp1 90 "T" fs1
    = Ok (true, after (save_rates store today imp1 exp1 90 "T" fs1)) /\
  load_rates store today (after (save_rates store today imp1 exp1 90 "T" fs1))
    = Ok (Some (imp1, exp1)).
Proof.
  split; [reflexivity|]. split; [reflexivity|].
  apply (resave_loaded_tables store today imp1 exp1 90 "T" fs1); reflexivity.
Defined.

Lemma empty_save_truncates_witness :
  load_rates store today fs1 = Ok (Some (imp1, exp1)) /\
  save_rates store today ∅ ∅ 60 "T" fs1
    = Ok (true, after (save_rates store today ∅ ∅ 60 "T" fs1)) /\
  exists I' E', load_rates store today (after (save_rates store today ∅ ∅ 60 "T" fs1))
                  = Ok (Some (I', E')) /\
    forall m, I' !! m = (if Z.ltb m 60 then imp1 !! m else None) /\
              E' !! m = (if Z.ltb m 60 then exp1 !! m else None).
Proof.
  split; [reflexivity|]. split; [reflexivity|].
  apply (empty_save_truncates store today imp1 exp1 60 "T" fs1); reflexivity.
Defined.

Lemma save_replaces_when_nothing_frozen_witness :
  load_rates store today fs1 = Ok (Some (imp1, exp1)) /\
  (forall m, m ∈ dom imp1 ∪ dom exp1 -> 0 <= m) /\
  save_rates store today imp2 exp2 0 "T" fs1
    = Ok (true, after (save_rates store today imp2 exp2 0 "T" fs1)) /\
  load_rates store today (after (save_rates store today imp2 exp2 0 "T" fs1))
    = Ok (Some (imp2, exp2)).
Proof.
  assert (Hb : forall m, m ∈ dom imp1 ∪ dom exp1 -> 0 <= m).
  { apply (bool_decide_unpack (set_Forall (fun m => 0 <= m) (dom imp1 ∪ dom exp1))).
    vm_compute. reflexivity. }
  split; [reflexivity|]. split; [exact Hb|]. split; [reflexivity|].
  apply (save_replaces_when_nothing_frozen store today imp1 exp1 imp2 exp2 0 "T" fs1);
    [reflexivity|exact Hb|reflexivity].
Defined.

Lemma save_merges_when_all_frozen_witness :
  load_rates store today fs1 = Ok (Some (imp1, exp1)) /\
  (forall m, m ∈ dom imp1 ∪ dom exp1 -> m < 100) /\
  save_rates store today imp2 exp2 100 "T" fs1
    = Ok (true, after (save_rates store today imp2 exp2 100 "T" fs1)) /\
  load_rates store today (after (save_rates store today imp2 exp2 100 "T" fs1))
    = Ok (Some (imp1 ∪ imp2, exp1 ∪ exp2)).
Proof.
  assert (Hb : forall m, m ∈ dom imp1 ∪ dom exp1 -> m < 100).
  { apply (bool_decide_unpack (set_Forall (fun m => m < 100) (dom imp1 ∪ dom exp1))).
    vm_compute. reflexivity. }
  split; [reflexivity|]. split; [exact Hb|]. split; [reflexivity|].
  apply (save_merges_when_all_frozen store today imp1 exp1 imp2 exp2 100 "T" fs1);
    [reflexivity|exact Hb|reflexivity].
Defined.

Lemma load_rates_last_key_wins_witness :
  store_load (get_filepath store today) dup_fs = Some dup_doc /\
  rates_import dup_doc = Some (SObj [("30", 1#1); ("060", 3#1); ("+30", 2#1)]) /\
  load_rates store today dup_fs = Ok (Some (tbl [(30, 2#1); (60, 3#1)], ∅)) /\
  forall m v, tbl [(30, 2#1); (60, 3#1)] !! m = Some v <->
    exists l1 k l2, [("30", 1#1); ("060", 3#1); ("+30", 2#1)] = l1 ++ (k, v) :: l2 /\
      int_of_str k = Ok m /\ Forall (fun kv => int_of_str kv.1 <> Ok m) l2.
Proof.
  split; [reflexivity|]. split; [reflexivity|]. split; [reflexivity|].
  apply (load_rates_last_key_wins store today dup_fs dup_doc _ (tbl [(30, 2#1); (60, 3#1)]) ∅);
    reflexivity.
Defined.

Lemma advancing_boundary_resave_witness :
  30 <= 60 /\
  save_rates store today imp1 exp1 30 "T1" fs0 = Ok (true, fs_adv) /\
  save_rates store today imp1 exp1 60 "T2" fs_adv
    = Ok (true, after (save_rates store today imp1 exp1 60 "T2" fs_adv)) /\
  load_rates store today (after (save_rates store today imp1 exp1 60 "T2" fs_adv))
    = load_rates store today fs_adv.
Proof.
  split; [lia|]. split; [reflexivity|]. split; [reflexivity|].
  apply (advancing_boundary_resave store today imp1 exp1 30 60 "T1" "T2" fs0 fs_adv);
    [lia|reflexivity|reflexivity].
Defined.

Lemma saved_minutes_domain_witness :
  load_rates store today fs1 = Ok (Some (imp1, exp1)) /\
  save_rates store today imp2 exp_only 60 "2026-10-18T13:35:00" fs1 = Ok (true, fs_leak) /\
  exists I' E', load_rates store today fs_leak = Ok (Some (I', E')) /\
    dom I' = filter (fun m => m < 60) (dom imp1) ∪ dom imp2 /\
    dom E' = filter (fun m => m < 60) (dom exp1) ∪ dom exp_only.
Proof.
  split; [reflexivity|]. split; [reflexivity|].
  apply (saved_minutes_domain store today imp1 exp1 imp2 exp_only 60 "2026-10-18T13:35:00" fs1);
    reflexivity.
Defined.
